(** * PhotoKitty: a shallow embedding of [src/App.tsx]

    The development follows the source file:

    - [THREE], [Rand] : the vector operations of three.js that the layout
                   code calls, and [Math.random] as a stream of draws
                   threaded explicitly;
    - [Layout]   : [getHelloKittyData], the procedural point generator;
    - [Gallery]  : the particle table, [uniquePhotoIndices],
                   [getGalleryPosition] and the per-frame update of
                   [CompositionElements];
    - [Gesture]  : the debounce logic of [predictWebcam];
    - [App]      : the eight [useState] cells of [PhotoKittyApp], its
                   handlers and the conditions under which the controls that
                   call them are rendered.

    JavaScript numbers are doubles.  Integer-valued ones (indices, counters,
    photo counts) are in [Z] or [nat]; the coordinates and angles of the
    scene are idealised as real numbers; classifier scores and the hand
    position are rationals, so that the threshold tests compute.  Statements
    about the generated body and about the steering speed are phrased so
    that rounding cannot change them: computed coordinates are given closed
    bounds, and a hypothesis on a draw or on the hand position stays clear
    of a threshold that rounding could move (the literal 0.85, the edges of
    the dead zone of the hand).

    Definitions come first, the theorems about them afterwards. *)

From Stdlib Require Import ZArith QArith Qabs Reals String List Lra Lia.
From Stdlib Require Lqa.
From stdpp Require Import gmap list sorting.
Import ListNotations.

(** [TOTAL_NUMBERED_PHOTOS] (line 16). *)
Definition TOTAL_NUMBERED_PHOTOS : Z := 52.

(** The ['CHAOS' | 'FORMED'] union used for [sceneState], for the [state]
    prop and for the gesture target. *)
Inductive SceneState : Type := CHAOS | FORMED.

Definition SceneState_eqb (a b : SceneState) : bool :=
  match a, b with
  | CHAOS, CHAOS | FORMED, FORMED => true
  | _, _ => false
  end.

(** * The part of three.js the layout code calls

    three.js is a dependency, not part of the repository; the operations
    are modelled from their documented arithmetic, on real numbers. *)
Module THREE.

Local Open Scope R_scope.

Module Vector3.

Record t : Type := mk { x : R; y : R; z : R }.

(** [new THREE.Vector3()]. *)
Definition zero : t := mk 0 0 0.

(** [a.add(b)]. *)
Definition add (a b : t) : t := mk (x a + x b) (y a + y b) (z a + z b).

(** [v.applyAxisAngle(axis, angle)]: the unit quaternion
    [(axis * sin(angle/2), cos(angle/2))] applied to [v]. *)
Definition applyAxisAngle (v axis : t) (angle : R) : t :=
  let s := sin (angle / 2) in
  let qx := x axis * s in
  let qy := y axis * s in
  let qz := z axis * s in
  let qw := cos (angle / 2) in
  let tx := 2 * (qy * z v - qz * y v) in
  let ty := 2 * (qz * x v - qx * z v) in
  let tz := 2 * (qx * y v - qy * x v) in
  mk (x v + qw * tx + qy * tz - qz * ty)
     (y v + qw * ty + qz * tx - qx * tz)
     (z v + qw * tz + qx * ty - qy * tx).

(** Squared Euclidean distance between two points. *)
Definition distanceToSquared (a b : t) : R :=
  (x a - x b) * (x a - x b) + (y a - y b) * (y a - y b)
  + (z a - z b) * (z a - z b).

End Vector3.

Module Euler.

Record t : Type := mk { x : R; y : R; z : R }.

(** [new THREE.Euler()]. *)
Definition zero : t := mk 0 0 0.

End Euler.

End THREE.

(** * [Math.random]

    A computation that draws random numbers reads them, in order, from a
    stream [rnd] of the values [Math.random] returns; the state is the
    number of draws made so far. *)
Module Rand.

Definition t (A : Type) : Type := (nat -> R) -> nat -> A * nat.

Definition ret {A : Type} (a : A) : t A := fun _ n => (a, n).

Definition bind {A B : Type} (m : t A) (k : A -> t B) : t B :=
  fun rnd n => let '(a, n') := m rnd n in k a rnd n'.

(** [Math.random()]. *)
Definition random : t R := fun rnd n => (rnd n, S n).

(** Run from the first draw and keep the value. *)
Definition run {A : Type} (m : t A) (rnd : nat -> R) : A := fst (m rnd 0%nat).

End Rand.

Declare Scope rand_scope.
Delimit Scope rand_scope with rand.
Notation "x <- c1 ;; c2" := (Rand.bind c1 (fun x => c2))
  (at level 100, c1 at next level, right associativity) : rand_scope.

(** * The layout generator: [getHelloKittyData] (lines 66-204) *)
Module Layout.

Import THREE.
Local Open Scope R_scope.

Inductive ElementType : Type :=
| PHOTO | HEART | BALLOON | GIFT | EYE | NOSE | WHISKER | BOW.

Definition ElementType_eqb (a b : ElementType) : bool :=
  match a, b with
  | PHOTO, PHOTO | HEART, HEART | BALLOON, BALLOON | GIFT, GIFT
  | EYE, EYE | NOSE, NOSE | WHISKER, WHISKER | BOW, BOW => true
  | _, _ => false
  end.

(** [CONFIG.colors] (21-30), the entries the generator uses. *)
Module colors.
Definition pink : string := "#ff69b4".
Definition hotPink : string := "#ff1493".
Definition lightPink : string := "#ffb6c1".
Definition white : string := "#ffffff".
Definition black : string := "#1a1a1a".
Definition yellow : string := "#ffd700".
Definition blue : string := "#87cefa".
End colors.

(** The object returned at line 203. *)
Record KittyData : Type := mkKittyData {
  type : ElementType;
  pos : Vector3.t;
  color : string;
  scale : R;
  rotation : Euler.t
}.

(** The whisker constants (99-126). *)
Definition whiskerSide (index : Z) : Z := if (index <? 6)%Z then (-1)%Z else 1%Z.
Definition whiskerRow (index : Z) : Z := Z.rem (index - 3) 3.
Definition tilt : R := 0.15.
Definition rowTilt (row : Z) : R :=
  if (row =? 0)%Z then tilt else if (row =? 1)%Z then 0 else - tilt.

(** The three lobes of the bow (139-141):
    [(center, radius, scaleX, scaleY)] chosen by [part]. *)
Definition bowLobe (part : R) : Vector3.t * R * R * R :=
  if Rlt_dec part 0.2 then (Vector3.mk 0 0 0, 0.5, 1, 1)
  else if Rlt_dec part 0.6 then (Vector3.mk (-1.2) 0 0, 0.8, 1, 1.2)
  else (Vector3.mk 1.2 0 0, 0.8, 1, 1.2).

(** The common rotation and offset of the bow (150-151). *)
Definition bowAxis : Vector3.t := Vector3.mk 0 0 1.
Definition bowAngle : R := -0.5.
Definition bowOffset : Vector3.t := Vector3.mk 3 2.5 2.5.

(** The point of the bow before rotation and offset (143-149). *)
Definition bowLocal (part u v : R) : Vector3.t :=
  let '(center, radius, scaleX, scaleY) := bowLobe part in
  let theta := 2 * PI * u in
  let phi := acos (2 * v - 1) in
  let x := radius * sin phi * cos theta * scaleX in
  let y := radius * sin phi * sin theta * scaleY in
  let z := radius * cos phi * 0.5 in
  Vector3.add (Vector3.mk x y z) center.

(** The common rotation and offset of the bow, applied to a point. *)
Definition bowPlace (q : Vector3.t) : Vector3.t :=
  Vector3.add (Vector3.applyAxisAngle q bowAxis bowAngle) bowOffset.

(** The centres of the three lobes. *)
Definition lobeCenter : Vector3.t := Vector3.mk 0 0 0.
Definition lobeLeft : Vector3.t := Vector3.mk (-1.2) 0 0.
Definition lobeRight : Vector3.t := Vector3.mk 1.2 0 0.

(** The points within the ball of radius [r] about [c]. *)
Definition inBall (c : Vector3.t) (r : R) (p : Vector3.t) : Prop :=
  Vector3.distanceToSquared p c <= r * r.

(** The points within the axis-aligned ellipsoid about [c] with semi-axes
    [a], [b], [d]. *)
Definition inEllipsoid (c : Vector3.t) (a b d : R) (p : Vector3.t) : Prop :=
  ((Vector3.x p - Vector3.x c) / a) * ((Vector3.x p - Vector3.x c) / a)
  + ((Vector3.y p - Vector3.y c) / b) * ((Vector3.y p - Vector3.y c) / b)
  + ((Vector3.z p - Vector3.z c) / d) * ((Vector3.z p - Vector3.z c) / d)
  <= 1.

(** The union of the three lobe spheres (radius 0.5 about the centre
    lobe, 0.8 about the left and the right one), the lobe centres moved by
    [place]. *)
Definition lobeSpheres (place : Vector3.t -> Vector3.t) (p : Vector3.t) : Prop :=
  inBall (place lobeCenter) 0.5 p \/
  inBall (place lobeLeft) 0.8 p \/
  inBall (place lobeRight) 0.8 p.

(** The categorical choice of lines 159-162. *)
Definition bodyType (typeR : R) : ElementType :=
  if Rlt_dec typeR 0.5 then PHOTO
  else if Rlt_dec typeR 0.75 then BALLOON
  else if Rlt_dec typeR 0.9 then HEART
  else GIFT.

Local Open Scope rand_scope.

(** [getHelloKittyData] (68-204).  Draws, literals and arithmetic are real
    numbers here and doubles in the source: a computed coordinate can differ
    from the one below by rounding, which can land it on the closed end of a
    half-open range, and a draw within rounding distance of a threshold
    literal (of 0.85, which is not a double) can take another branch. *)
Definition getHelloKittyData (index : Z) : Rand.t KittyData :=
  if ((index =? 0) || (index =? 1))%Z then
    Rand.ret {| type := EYE;
                pos := Vector3.mk (if (index =? 0)%Z then -1.5 else 1.5) (-0.5) 3.8;
                color := colors.black; scale := 0.8; rotation := Euler.zero |}
  else if (index =? 2)%Z then
    Rand.ret {| type := NOSE; pos := Vector3.mk 0 (-1.2) 4;
                color := colors.yellow; scale := 0.6; rotation := Euler.zero |}
  else if ((3 <=? index) && (index <=? 8))%Z then
    let side := whiskerSide index in
    let row := whiskerRow index in
    let yBase := -0.8 in
    let yStep := 0.6 in
    let xPos := IZR side * 4.5 in
    let yPos := yBase - IZR row * yStep in
    let zPos := 3 in
    let rotZ :=
      if (side =? 1)%Z then - PI / 2 + rowTilt row else PI / 2 - rowTilt row in
    Rand.ret {| type := WHISKER; pos := Vector3.mk xPos yPos zPos;
                color := colors.black; scale := 1;
                rotation := Euler.mk 0 0 rotZ |}
  else if ((9 <=? index) && (index <=? 35))%Z then
    s <- Rand.random ;;
    part <- Rand.random ;;
    u <- Rand.random ;;
    v <- Rand.random ;;
    Rand.ret {| type := BOW;
                pos := bowPlace (bowLocal part u v);
                color := colors.hotPink; scale := 0.8 + s * 0.4;
                rotation := Euler.zero |}
  else
    r <- Rand.random ;;
    typeR <- Rand.random ;;
    let type := bodyType typeR in
    color <- (if ElementType_eqb type HEART || ElementType_eqb type GIFT then
                c <- Rand.random ;;
                Rand.ret (if Rgt_dec c 0.5 then colors.white else colors.lightPink)
              else Rand.ret colors.white) ;;
    if Rlt_dec r 0.65 then
      u <- Rand.random ;;
      v <- Rand.random ;;
      let theta := 2 * PI * u in
      let phi := acos (2 * v - 1) in
      b <- Rand.random ;;
      let rBase := 3.5 + b * 0.5 in
      Rand.ret {| type := type;
                  pos := Vector3.mk (rBase * sin phi * cos theta)
                                    ((rBase * 0.75) * sin phi * sin theta)
                                    ((rBase * 0.75) * cos phi);
                  color := color; scale := 1; rotation := Euler.zero |}
    else if Rlt_dec r 0.85 then
      l <- Rand.random ;;
      let isLeft := if Rgt_dec l 0.5 then true else false in
      u <- Rand.random ;;
      v <- Rand.random ;;
      let theta := 2 * PI * u in
      let phi := acos (2 * v - 1) in
      let radius := 1.2 in
      let x := radius * sin phi * cos theta in
      let y := radius * sin phi * sin theta in
      let z := radius * cos phi in
      let offset := Vector3.mk (if isLeft then -3.5 else 3.5) 3 0 in
      let rotationZ := if isLeft then 0.5 else -0.5 in
      Rand.ret {| type := type;
                  pos := Vector3.add
                           (Vector3.applyAxisAngle (Vector3.mk x y z)
                                                   (Vector3.mk 0 0 1) rotationZ)
                           offset;
                  color := color; scale := 1; rotation := Euler.zero |}
    else
      u <- Rand.random ;;
      v <- Rand.random ;;
      let theta := 2 * PI * u in
      let h := -4 + v * 3 in
      let r := 2.5 * (1 - (h + 4) / 4) + 1.5 in
      color <- (if negb (ElementType_eqb type PHOTO) then
                  c <- Rand.random ;;
                  Rand.ret (if Rgt_dec c 0.5 then colors.blue else colors.pink)
                else Rand.ret color) ;;
      Rand.ret {| type := type;
                  pos := Vector3.mk (r * cos theta) h (r * sin theta);
                  color := color; scale := 1; rotation := Euler.zero |}.

(** A stream of draws: 0 for the scale, 0.3 for [part] (left lobe), 0.25
    for [u] and 0.5 ever after. *)
Definition topOfLeftLobe (n : nat) : R :=
  match n with
  | O => 0
  | S O => 0.3
  | S (S O) => 0.25
  | _ => 0.5
  end.

End Layout.

(** * The particle field: [CompositionElements] (lines 339-519) *)
Module Gallery.

Import THREE.
Local Open Scope R_scope.

(** One entry of [data] (352-358). *)
Record Particle : Type := mkParticle {
  type : Layout.ElementType;
  targetPos : Vector3.t;
  chaosPos : Vector3.t;
  color : string;
  scale : R;
  targetRotation : Euler.t;
  currentPos : Vector3.t;
  chaosRotation : Euler.t;
  textureIndex : nat;
  rotationSpeed : Vector3.t
}.

(** What the frame update writes on the three.js group of a particle
    (its orientation, set through [lookAt], is left out). *)
Record Group : Type := mkGroup {
  position : Vector3.t;
  visible : bool
}.

Local Open Scope rand_scope.

(** The callback of [map] at lines 346-359, for index [i]. *)
Definition makeParticle (texturesLength i : nat) : Rand.t Particle :=
  k <- Layout.getHelloKittyData (Z.of_nat i) ;;
  cx <- Rand.random ;; cy <- Rand.random ;; cz <- Rand.random ;;
  let chaosPos := Vector3.mk ((cx - 0.5) * 60) ((cy - 0.5) * 60) ((cz - 0.5) * 60) in
  rx <- Rand.random ;; ry <- Rand.random ;; rz <- Rand.random ;;
  let chaosRotation := Euler.mk (rx * PI) (ry * PI) (rz * PI) in
  sx <- Rand.random ;; sy <- Rand.random ;; sz <- Rand.random ;;
  Rand.ret {| type := Layout.type k; targetPos := Layout.pos k;
              chaosPos := chaosPos; color := Layout.color k;
              scale := Layout.scale k; targetRotation := Layout.rotation k;
              currentPos := chaosPos; chaosRotation := chaosRotation;
              textureIndex := (i mod texturesLength)%nat;
              rotationSpeed := Vector3.mk ((sx - 0.5) * 0.5) ((sy - 0.5) * 0.5)
                                          ((sz - 0.5) * 0.5) |}.

(** [new Array(count).fill(0).map(...)]: entries [i, i+1, ..., i+n-1]. *)
Fixpoint makeDataFrom (texturesLength n i : nat) : Rand.t (list Particle) :=
  match n with
  | O => Rand.ret []
  | S n' =>
    p <- makeParticle texturesLength i ;;
    rest <- makeDataFrom texturesLength n' (S i) ;;
    Rand.ret (p :: rest)
  end.

(** [data] (345-360), with [count = CONFIG.counts.total = 400] and one
    texture per numbered photo. *)
Definition count : nat := 400.
Definition data : Rand.t (list Particle) :=
  makeDataFrom (Z.to_nat TOTAL_NUMBERED_PHOTOS) count 0.

Local Close Scope rand_scope.

(** The body of the [for] loop of lines 367-375, on [(seenTextures,
    indices)]. *)
Definition uniqueStep (data : list Particle)
    (acc : gset nat * list nat) (i : nat) : gset nat * list nat :=
  match data !! i with
  | Some p =>
    if Layout.ElementType_eqb (type p) Layout.PHOTO then
      if decide (textureIndex p ∈ acc.1) then acc
      else ({[textureIndex p]} ∪ acc.1, acc.2 ++ [i])
    else acc
  | None => acc
  end.

(** [uniquePhotoIndices] (364-377). *)
Definition uniquePhotoIndices (data : list Particle) : list nat :=
  (fold_left (uniqueStep data) (seq 0 (length data)) (∅, [])).2.

(** The state of that loop after the first [n] particles. *)
Definition uniqueAfter (data : list Particle) (n : nat) : gset nat * list nat :=
  fold_left (uniqueStep data) (seq 0 n) (∅, []).

(** [getGalleryPosition] (380-390). *)
Definition radius : R := 20.

Definition galleryAngle (photoIdx totalPhotos focusedIndex : Z) : R :=
  let angleOffset := (IZR focusedIndex / IZR totalPhotos) * PI * 2 in
  (IZR photoIdx / IZR totalPhotos) * PI * 2 - angleOffset.

Definition getGalleryPosition (photoIdx totalPhotos focusedIndex : Z) : Vector3.t :=
  let angle := galleryAngle photoIdx totalPhotos focusedIndex in
  Vector3.mk (sin angle * radius) 0 (cos angle * radius).

(** [Array.prototype.includes] and [indexOf] on [number[]]. *)
Definition includes (l : list nat) (i : nat) : bool := existsb (Nat.eqb i) l.

Fixpoint indexOf (l : list nat) (i : nat) : Z :=
  match l with
  | [] => (-1)%Z
  | j :: rest =>
    if Nat.eqb j i then 0%Z
    else let k := indexOf rest i in if (k <? 0)%Z then (-1)%Z else (k + 1)%Z
  end.

(** [a.lerp(b, alpha)]. *)
Definition lerp (a b : Vector3.t) (alpha : R) : Vector3.t :=
  Vector3.mk (Vector3.x a + (Vector3.x b - Vector3.x a) * alpha)
             (Vector3.y a + (Vector3.y b - Vector3.y a) * alpha)
             (Vector3.z a + (Vector3.z b - Vector3.z a) * alpha).

(** The callback of [forEach] at lines 396-450 for child [i]: the new
    [currentPos] of the particle, and the position and visibility of its
    group. *)
Definition frameChild (state : SceneState) (galleryMode : bool)
    (currentPhotoIndex : Z) (uniquePhotoIndices : list nat) (delta : R)
    (i : nat) (objData : Particle) (group : Group) : Particle * Group :=
  let isFormed := SceneState_eqb state FORMED in
  let isUniqueGalleryPhoto := galleryMode && includes uniquePhotoIndices i in
  let target :=
    if isUniqueGalleryPhoto then
      let photoIndexInGallery := indexOf uniquePhotoIndices i in
      getGalleryPosition photoIndexInGallery
                         (Z.of_nat (length uniquePhotoIndices)) currentPhotoIndex
    else if isFormed then targetPos objData
    else chaosPos objData in
  let lerpSpeed := if galleryMode then 2.0 else if isFormed then 1.5 else 0.5 in
  let current := lerp (currentPos objData) target (delta * lerpSpeed) in
  ({| type := type objData; targetPos := targetPos objData;
      chaosPos := chaosPos objData; color := color objData;
      scale := scale objData; targetRotation := targetRotation objData;
      currentPos := current; chaosRotation := chaosRotation objData;
      textureIndex := textureIndex objData;
      rotationSpeed := rotationSpeed objData |},
   {| position := current;
      visible := if galleryMode
                 then (if isUniqueGalleryPhoto then true else false)
                 else true |}).

(** The [forEach] over the children, child [i] paired with [data[i]]; the
    children are rendered from [data.map], one group per entry. *)
Fixpoint frameChildren (state : SceneState) (galleryMode : bool)
    (currentPhotoIndex : Z) (uniquePhotoIndices : list nat) (delta : R)
    (i : nat) (data : list Particle) (children : list Group)
  : list Particle * list Group :=
  match data, children with
  | objData :: data', group :: children' =>
    let '(p, g) := frameChild state galleryMode currentPhotoIndex
                              uniquePhotoIndices delta i objData group in
    let '(ps, gs) := frameChildren state galleryMode currentPhotoIndex
                                   uniquePhotoIndices delta (S i) data' children' in
    (p :: ps, g :: gs)
  | _, _ => (data, children)
  end.

(** The [useFrame] callback (392-451).  [groupRef] is [None] while
    [groupRef.current] is null. *)
Definition useFrame (state : SceneState) (galleryMode : bool)
    (currentPhotoIndex : Z) (delta : R)
    (data : list Particle) (groupRef : option (list Group))
  : list Particle * option (list Group) :=
  match groupRef with
  | None => (data, None)
  | Some children =>
    let '(ps, gs) := frameChildren state galleryMode currentPhotoIndex
                                   (uniquePhotoIndices data) delta 0 data children in
    (ps, Some gs)
  end.

(** A small particle table for examples: a particle of type [t] with
    texture [tex], everything else at the origin. *)
Definition sampleParticle (t : Layout.ElementType) (tex : nat) : Particle :=
  {| type := t; targetPos := Vector3.zero; chaosPos := Vector3.zero;
     color := Layout.colors.white; scale := 1; targetRotation := Euler.zero;
     currentPos := Vector3.zero; chaosRotation := Euler.zero;
     textureIndex := tex; rotationSpeed := Vector3.zero |}.

Definition sampleData : list Particle :=
  [sampleParticle Layout.PHOTO 0; sampleParticle Layout.HEART 1;
   sampleParticle Layout.PHOTO 0; sampleParticle Layout.PHOTO 2].

Definition sampleChildren : list Group :=
  map (fun p => {| position := currentPos p; visible := true |}) sampleData.

End Gallery.

(** * The gesture controller: [predictWebcam] (lines 606-667) *)
Module Gesture.

Local Open Scope Z_scope.

(** The three [useRef] cells (569-571). *)
Record Refs : Type := mkRefs {
  lastGesture : option string;
  gestureCount : Z;
  currentState : option SceneState
}.

Definition initialRefs : Refs :=
  {| lastGesture := None; gestureCount := 0; currentState := None |}.

(** [results.gestures[h][0]]: the top category of hand [h]. *)
Record Category : Type := mkCategory {
  categoryName : string;
  score : Q
}.

(** What [recognizeForVideo] returns, as far as [predictWebcam] reads it:
    per detected hand its top category, and per detected hand the [x] of
    its first landmark. *)
Record Results : Type := mkResults {
  gestures : list Category;
  landmarks : list Q
}.

(** The callbacks received as props. *)
Inductive Callback : Type :=
| OnGesture (target : SceneState)
| OnMove (speed : Q)
| OnStatus (msg : string).

(** [a > b] on numbers. *)
Definition Qgtb (a b : Q) : bool := negb (Qle_bool a b).

(** [name === lastGesture.current]. *)
Definition sameLabel (name : string) (last : option string) : bool :=
  match last with
  | Some l => String.eqb name l
  | None => false
  end.

(** The two consecutive [if]s of lines 635-637. *)
Definition targetOf (name : string) : option SceneState :=
  let targetState := None in
  let targetState :=
    if String.eqb name "Open_Palm" then Some CHAOS else targetState in
  let targetState :=
    if String.eqb name "Closed_Fist" then Some FORMED else targetState in
  targetState.

Definition showState (t : SceneState) : string :=
  match t with CHAOS => "CHAOS" | FORMED => "FORMED" end.

(** [targetState && targetState !== currentState.current]. *)
Definition differs (t : SceneState) (cur : option SceneState) : bool :=
  match cur with
  | Some c => negb (SceneState_eqb t c)
  | None => true
  end.

(** The debounce logic (624-651) on one classification sample. *)
Definition debounce (debugMode : bool) (c : Category) (r : Refs)
  : Refs * list Callback :=
  let name := categoryName c in
  if Qgtb (score c) 0.5 then
    let r1 :=
      if sameLabel name (lastGesture r) then
        {| lastGesture := lastGesture r;
           gestureCount := gestureCount r + 1;
           currentState := currentState r |}
      else
        {| lastGesture := Some name;
           gestureCount := 1;
           currentState := currentState r |} in
    if gestureCount r1 >? 5 then
      match targetOf name with
      | Some targetState =>
        if differs targetState (currentState r1) then
          ({| lastGesture := lastGesture r1;
              gestureCount := gestureCount r1;
              currentState := Some targetState |},
           OnGesture targetState ::
           (if debugMode
            then [OnStatus ("DETECTED: " ++ name ++ " -> " ++ showState targetState)]
            else []))
        else (r1, [])
      | None => (r1, [])
      end
    else (r1, [])
  else
    ({| lastGesture := None; gestureCount := 0;
        currentState := currentState r |}, []).

(** Lines 653-656: hand position to rotation speed. *)
Definition moveOf (x : Q) : Q :=
  let speed := ((0.5 - x) * 0.15)%Q in
  if Qgtb (Qabs speed) 0.01 then speed else 0%Q.

(** One classified frame (621-663). *)
Definition processFrame (debugMode : bool) (res : Results) (r : Refs)
  : Refs * list Callback :=
  match gestures res with
  | c :: _ =>
    let '(r', cbs) := debounce debugMode c r in
    (r', cbs ++ match landmarks res with
                | x :: _ => [OnMove (moveOf x)]
                | [] => []
                end)
  | [] =>
    ({| lastGesture := None; gestureCount := 0;
        currentState := currentState r |},
     OnMove 0%Q :: (if debugMode then [OnStatus "AI READY: NO HAND"] else []))
  end.

(** The transition events among a frame's callbacks. *)
Fixpoint transitions (cbs : list Callback) : list SceneState :=
  match cbs with
  | [] => []
  | OnGesture t :: rest => t :: transitions rest
  | _ :: rest => transitions rest
  end.

(** Feeding a sequence of samples to the debouncer; the result lists the
    transition events of each sample, in order. *)
Fixpoint feed (debugMode : bool) (cs : list Category) (r : Refs)
  : Refs * list (list SceneState) :=
  match cs with
  | [] => (r, [])
  | c :: rest =>
    let '(r1, cbs) := debounce debugMode c r in
    let '(r2, evs) := feed debugMode rest r1 in
    (r2, transitions cbs :: evs)
  end.

(** The states of the refs that the frame loop can reach after mounting. *)
Inductive reachable : Refs -> Prop :=
| reach_init : reachable initialRefs
| reach_frame debugMode res r :
    reachable r -> reachable (fst (processFrame debugMode res r)).

(** A run of [n] samples of one label, each with its own score. *)
Definition sameLabelRun (name : string) (scores : list Q) : list Category :=
  map (mkCategory name) scores.

(** A sample counts toward a run when its confidence is above 0.5. *)
Definition qualifies (c : Category) : bool := Qgtb (score c) 0.5.

(** Reading samples from the most recent one backwards: how many of them,
    without a gap, qualify and carry the label [name]. *)
Fixpoint sameRun (name : string) (recent : list Category) : nat :=
  match recent with
  | c :: older =>
    if qualifies c && String.eqb (categoryName c) name
    then S (sameRun name older)
    else O
  | [] => O
  end.

(** The run the most recent sample closes: 0 if that sample does not
    qualify, otherwise the number of consecutive qualifying samples, ending
    with it, that carry its label. *)
Definition trailingRun (recent : list Category) : nat :=
  match recent with
  | c :: older => if qualifies c then S (sameRun (categoryName c) older) else O
  | [] => O
  end.

(** The label of that run, if there is one. *)
Definition trailingLabel (recent : list Category) : option string :=
  match recent with
  | c :: _ => if qualifies c then Some (categoryName c) else None
  | [] => None
  end.

(** What the sample [c] emits when it closes a run of [run] samples with
    [cur] latched: the state its label maps to, on the sixth sample of the
    run and only if that state is not the latched one. *)
Definition sixthSampleEvent (run : nat) (c : Category) (cur : option SceneState)
  : list SceneState :=
  if Nat.eqb run 6 then
    match targetOf (categoryName c) with
    | Some t => if differs t cur then [t] else []
    | None => []
    end
  else [].

(** Once the count is above 5 the latched state already agrees with the
    label being held. *)
Definition latched (r : Refs) : Prop :=
  (5 < gestureCount r)%Z ->
  forall name t, lastGesture r = Some name -> targetOf name = Some t ->
                 currentState r = Some t.

End Gesture.

(** * The application shell: [PhotoKittyApp] (lines 681-877) *)
Module App.

Local Open Scope Z_scope.

(** One field per [useState] cell, in declaration order (682-689). *)
Record State : Type := mkState {
  sceneState : SceneState;
  rotationSpeed : Q;
  birthdayMode : bool;
  aiStatus : string;
  debugMode : bool;
  photoCount : Z;
  galleryMode : bool;
  currentPhotoIndex : Z
}.

(** The initial values passed to [useState]. *)
Definition initial : State :=
  {| sceneState := CHAOS; rotationSpeed := 0%Q; birthdayMode := false;
     aiStatus := "INITIALIZING..."; debugMode := false; photoCount := 0;
     galleryMode := false; currentPhotoIndex := 0 |}.

(** The setters.  Each replaces exactly one cell. *)
Definition setSceneState (f : SceneState -> SceneState) (s : State) : State :=
  {| sceneState := f (sceneState s); rotationSpeed := rotationSpeed s;
     birthdayMode := birthdayMode s; aiStatus := aiStatus s;
     debugMode := debugMode s; photoCount := photoCount s;
     galleryMode := galleryMode s; currentPhotoIndex := currentPhotoIndex s |}.

Definition setRotationSpeed (v : Q) (s : State) : State :=
  {| sceneState := sceneState s; rotationSpeed := v;
     birthdayMode := birthdayMode s; aiStatus := aiStatus s;
     debugMode := debugMode s; photoCount := photoCount s;
     galleryMode := galleryMode s; currentPhotoIndex := currentPhotoIndex s |}.

Definition setBirthdayMode (b : bool) (s : State) : State :=
  {| sceneState := sceneState s; rotationSpeed := rotationSpeed s;
     birthdayMode := b; aiStatus := aiStatus s;
     debugMode := debugMode s; photoCount := photoCount s;
     galleryMode := galleryMode s; currentPhotoIndex := currentPhotoIndex s |}.

Definition setAiStatus (m : string) (s : State) : State :=
  {| sceneState := sceneState s; rotationSpeed := rotationSpeed s;
     birthdayMode := birthdayMode s; aiStatus := m;
     debugMode := debugMode s; photoCount := photoCount s;
     galleryMode := galleryMode s; currentPhotoIndex := currentPhotoIndex s |}.

Definition setDebugMode (b : bool) (s : State) : State :=
  {| sceneState := sceneState s; rotationSpeed := rotationSpeed s;
     birthdayMode := birthdayMode s; aiStatus := aiStatus s;
     debugMode := b; photoCount := photoCount s;
     galleryMode := galleryMode s; currentPhotoIndex := currentPhotoIndex s |}.

Definition setPhotoCount (f : Z -> Z) (s : State) : State :=
  {| sceneState := sceneState s; rotationSpeed := rotationSpeed s;
     birthdayMode := birthdayMode s; aiStatus := aiStatus s;
     debugMode := debugMode s; photoCount := f (photoCount s);
     galleryMode := galleryMode s; currentPhotoIndex := currentPhotoIndex s |}.

Definition setGalleryMode (b : bool) (s : State) : State :=
  {| sceneState := sceneState s; rotationSpeed := rotationSpeed s;
     birthdayMode := birthdayMode s; aiStatus := aiStatus s;
     debugMode := debugMode s; photoCount := photoCount s;
     galleryMode := b; currentPhotoIndex := currentPhotoIndex s |}.

Definition setCurrentPhotoIndex (f : Z -> Z) (s : State) : State :=
  {| sceneState := sceneState s; rotationSpeed := rotationSpeed s;
     birthdayMode := birthdayMode s; aiStatus := aiStatus s;
     debugMode := debugMode s; photoCount := photoCount s;
     galleryMode := galleryMode s; currentPhotoIndex := f (currentPhotoIndex s) |}.

(** [totalGalleryPhotos] (line 693). *)
Definition totalGalleryPhotos : Z := TOTAL_NUMBERED_PHOTOS.

(** [handleGalleryToggle] (695-706).  The handler reads [galleryMode] and
    [sceneState]; it never reads [birthdayMode]. *)
Definition handleGalleryToggle (s : State) : State :=
  if negb (galleryMode s) then
    if SceneState_eqb (sceneState s) FORMED then
      setCurrentPhotoIndex (fun _ => 0) (setGalleryMode true s)
    else s
  else setGalleryMode false s.

(** [handlePrevPhoto] and [handleNextPhoto] (708-714).  JavaScript's [%]
    takes the sign of the dividend: [Z.rem]. *)
Definition prevPhoto (prev : Z) : Z :=
  Z.rem (prev - 1 + totalGalleryPhotos) totalGalleryPhotos.

Definition nextPhoto (prev : Z) : Z :=
  Z.rem (prev + 1) totalGalleryPhotos.

Definition handlePrevPhoto (s : State) : State := setCurrentPhotoIndex prevPhoto s.
Definition handleNextPhoto (s : State) : State := setCurrentPhotoIndex nextPhoto s.

(** What a handler does besides updating state.  The two [alert] calls of
    [handlePhotoUpload] are kept apart by constructor, carrying the numbers
    interpolated into their templates. *)
Inductive Effect : Type :=
| AlertLimitReached (limit : Z)
| AlertReadyToUpload (filesToUpload first last : Z)
| ResetFileInput.

(** [handlePhotoUpload] (739-760).  [files] is [event.target.files]:
    [None] for [null], otherwise the selected files (by name). *)
Definition handlePhotoUpload (files : option (list string)) (s : State)
  : State * list Effect :=
  match files with
  | None => (s, [])
  | Some fs =>
    if Z.of_nat (length fs) =? 0 then (s, [])
    else
      let remainingSlots := TOTAL_NUMBERED_PHOTOS - photoCount s in
      if remainingSlots <=? 0 then
        (s, [AlertLimitReached TOTAL_NUMBERED_PHOTOS])
      else
        let filesToUpload := Z.min (Z.of_nat (length fs)) remainingSlots in
        (setPhotoCount
           (fun prev => Z.min (prev + filesToUpload) TOTAL_NUMBERED_PHOTOS) s,
         [AlertReadyToUpload filesToUpload (photoCount s + 1)
                             (photoCount s + filesToUpload);
          ResetFileInput])
  end.

(** The controls of the returned JSX and the conditions under which each
    is rendered (768, 777, 789, 807, 825/835, 850). *)
Inductive Control : Type :=
| SceneToggleButton
| GalleryButton
| BirthdayButton
| UploadInput (files : option (list string))
| DebugButton
| PrevArrow
| NextArrow.

Definition rendered (c : Control) (s : State) : bool :=
  match c with
  | SceneToggleButton => negb (galleryMode s)
  | GalleryButton =>
      (SceneState_eqb (sceneState s) FORMED && negb (birthdayMode s))
      || galleryMode s
  | BirthdayButton => true
  | UploadInput _ => true
  | DebugButton => negb (birthdayMode s)
  | PrevArrow | NextArrow => galleryMode s
  end.

(** The handler wired to each control. *)
Definition handler (c : Control) (s : State) : State :=
  match c with
  | SceneToggleButton =>
      setSceneState (fun st => if SceneState_eqb st CHAOS then FORMED else CHAOS) s
  | GalleryButton => handleGalleryToggle s
  | BirthdayButton => setBirthdayMode (negb (birthdayMode s)) s
  | UploadInput files => fst (handlePhotoUpload files s)
  | DebugButton => setDebugMode (negb (debugMode s)) s
  | PrevArrow => handlePrevPhoto s
  | NextArrow => handleNextPhoto s
  end.

(** The state update of a user interaction: the handler of the control,
    which is attached only while the control is rendered.  What the
    re-render then starts is added by [click] below. *)
Definition interact (c : Control) (s : State) : State :=
  if rendered c s then handler c s else s.

(** The gesture controller is mounted only outside birthday and gallery
    mode (872-874); its props are [setSceneState], [setRotationSpeed] and
    [setAiStatus]. *)
Definition gestureMounted (s : State) : bool :=
  negb (birthdayMode s) && negb (galleryMode s).

(** The effect of the gesture controller (573-670) runs when the controller
    mounts and, while it stays mounted, when [debugMode] changes (the other
    dependencies are the three setters, which never change). *)
Definition effectRuns (before after : State) : bool :=
  gestureMounted after
  && (negb (gestureMounted before)
      || negb (Bool.eqb (debugMode before) (debugMode after))).

(** A click as the page lives it: the handler, the re-render, and then the
    effect, whose [setup] calls [onStatus("DOWNLOADING AI...")] before its
    first [await] (578). *)
Definition click (c : Control) (s : State) : State :=
  let s' := interact c s in
  if effectRuns s s' then setAiStatus "DOWNLOADING AI..." s' else s'.

Definition callback (cb : Gesture.Callback) (s : State) : State :=
  match cb with
  | Gesture.OnGesture t => setSceneState (fun _ => t) s
  | Gesture.OnMove v => setRotationSpeed v s
  | Gesture.OnStatus m => setAiStatus m s
  end.

(** Everything that updates the state cells: a control being activated, a
    callback from the gesture controller, and the photo check started on
    mount reporting its count (717-737). *)
Inductive Event : Type :=
| Activate (c : Control)
| FromGesture (cb : Gesture.Callback)
| PhotosChecked (loadedCount : Z).

Definition step (e : Event) (s : State) : State :=
  match e with
  | Activate c => interact c s
  | FromGesture cb => if gestureMounted s then callback cb s else s
  | PhotosChecked loadedCount => setPhotoCount (fun _ => loadedCount) s
  end.

End App.

(** * The camera rig: [Experience] (lines 522-562)

    The per-frame callback (525-530) hands the azimuth to the orbit controls
    of the drei library and calls their [update], whose arithmetic is not
    part of this source file; what the file itself decides is the prop
    below. *)
Module Experience.

(** The [autoRotate] prop of the orbit controls (535). *)
Definition autoRotate (birthdayMode galleryMode : bool) (rotationSpeed : Q) : bool :=
  Qeq_bool rotationSpeed 0 && negb birthdayMode && negb galleryMode.

End Experience.

(** * The frame loops, iterated *)
Module Loop.

(** [predictWebcam] rescheduling itself (665): the frames of a list, in
    order, with the callbacks of all of them. *)
Fixpoint frames (debugMode : bool) (rs : list Gesture.Results) (r : Gesture.Refs)
  : Gesture.Refs * list Gesture.Callback :=
  match rs with
  | [] => (r, [])
  | res :: rest =>
    let '(r1, cbs) := Gesture.processFrame debugMode res r in
    let '(r2, cbs') := frames debugMode rest r1 in
    (r2, cbs ++ cbs')
  end.

(** A sequence of transition events in which every event differs from the
    state latched before it. *)
Fixpoint alternates (cur : option SceneState) (evs : list SceneState) : Prop :=
  match evs with
  | [] => True
  | t :: rest => cur <> Some t /\ alternates (Some t) rest
  end.

(** [n] consecutive frames of [useFrame], followed on child [i]: the
    particle and its group after them. *)
Fixpoint childFrames (n : nat) (state : SceneState) (galleryMode : bool)
    (currentPhotoIndex : Z) (uniquePhotoIndices : list nat) (delta : R) (i : nat)
    (objData : Gallery.Particle) (group : Gallery.Group)
  : Gallery.Particle * Gallery.Group :=
  match n with
  | O => (objData, group)
  | S n' =>
    let '(p, g) := Gallery.frameChild state galleryMode currentPhotoIndex
                                      uniquePhotoIndices delta i objData group in
    childFrames n' state galleryMode currentPhotoIndex uniquePhotoIndices delta i p g
  end.

(** [n] presses of the next arrow. *)
Fixpoint nextN (n : nat) (i : Z) : Z :=
  match n with
  | O => i
  | S n' => nextN n' (App.nextPhoto i)
  end.

End Loop.

(** * The photo check on mount (lines 717-737) *)
Module Mount.

Local Open Scope Z_scope.

(** [checkAllPhotos]: [exists_ i] tells whether [photos/i.jpg] loads; the
    loop runs over [i = 1 .. TOTAL_NUMBERED_PHOTOS]. *)
Definition checkAllPhotos (exists_ : Z -> bool) : Z :=
  fold_left (fun loadedCount i => if exists_ i then loadedCount + 1 else loadedCount)
            (map Z.of_nat (seq 1 (Z.to_nat TOTAL_NUMBERED_PHOTOS))) 0.

(** The events the running application can deliver: the count reported by
    the photo check is the one [checkAllPhotos] computes. *)
Definition delivered (e : App.Event) : Prop :=
  match e with
  | App.PhotosChecked loadedCount => exists exists_, loadedCount = checkAllPhotos exists_
  | _ => True
  end.

(** The states the application reaches from its initial state. *)
Inductive reachable : App.State -> Prop :=
| reach_initial : reachable App.initial
| reach_step e s : delivered e -> reachable s -> reachable (App.step e s).

End Mount.

(** * Theorems: the application shell *)

Section AppFacts.

Import App.
Local Open Scope Z_scope.

Lemma SceneState_eqb_eq (a b : SceneState) :
  SceneState_eqb a b = true <-> a = b.
Proof. destruct a, b; simpl; split; congruence. Qed.

(** The toggle, case by case. *)
Lemma handleGalleryToggle_enter (s : State) :
  galleryMode s = false -> sceneState s = FORMED ->
  handleGalleryToggle s = setCurrentPhotoIndex (fun _ => 0) (setGalleryMode true s).
Proof. unfold handleGalleryToggle. intros -> ->. reflexivity. Qed.

Lemma handleGalleryToggle_reject (s : State) :
  galleryMode s = false -> sceneState s <> FORMED -> handleGalleryToggle s = s.
Proof.
  unfold handleGalleryToggle. intros -> Hne.
  destruct (sceneState s); [reflexivity | congruence].
Qed.

Lemma handleGalleryToggle_exit (s : State) :
  galleryMode s = true -> handleGalleryToggle s = setGalleryMode false s.
Proof. unfold handleGalleryToggle. intros ->. reflexivity. Qed.

(** Only the gallery button's handler ever sets [galleryMode]. *)
Lemma handler_galleryMode (c : Control) (s : State) :
  c <> GalleryButton -> galleryMode (handler c s) = galleryMode s.
Proof.
  destruct c; simpl; try congruence; try reflexivity.
  intros _. unfold handlePhotoUpload.
  destruct files as [fs|]; [|reflexivity].
  destruct (Z.of_nat (length fs) =? 0); [reflexivity|].
  destruct (TOTAL_NUMBERED_PHOTOS - photoCount s <=? 0); reflexivity.
Qed.

(** Through the rendered controls, gallery mode is entered only by the
    gallery button, from a FORMED scene with birthday mode off. *)
Lemma interact_enters_gallery (c : Control) (s : State) :
  galleryMode s = false -> galleryMode (interact c s) = true ->
  c = GalleryButton /\ sceneState s = FORMED /\ birthdayMode s = false.
Proof.
  intros Hg. unfold interact.
  destruct c; try (destruct (rendered _ s);
    [rewrite handler_galleryMode by discriminate|]; congruence).
  simpl. rewrite Hg.
  destruct (sceneState s), (birthdayMode s); simpl; try congruence.
  intros _. repeat split.
Qed.

(** No other event enters gallery mode. *)
Lemma step_enters_gallery (e : Event) (s : State) :
  galleryMode s = false -> galleryMode (step e s) = true ->
  e = Activate GalleryButton /\ sceneState s = FORMED /\ birthdayMode s = false.
Proof.
  intros Hg. destruct e as [c | cb | n]; simpl.
  - intros H. destruct (interact_enters_gallery c s Hg H) as (-> & H1 & H2).
    auto.
  - destruct (gestureMounted s); [destruct cb|]; simpl; congruence.
  - congruence.
Qed.

(** Clicks and the effect of the gesture controller.  A click that leaves
    the controller unmounted, or mounted with [debugMode] as it was, is the
    handler's update and nothing more. *)
Lemma click_no_effect (c : Control) (s : State) :
  effectRuns s (interact c s) = false -> click c s = interact c s.
Proof. unfold click. intros ->. reflexivity. Qed.

Lemma click_effect (c : Control) (s : State) :
  effectRuns s (interact c s) = true ->
  click c s = setAiStatus "DOWNLOADING AI..." (interact c s).
Proof. unfold click. intros ->. reflexivity. Qed.

(** The status written by the effect is a callback of the mounted
    controller: a click is one or two steps of the application. *)
Lemma click_as_steps (c : Control) (s : State) :
  click c s = step (Activate c) s \/
  click c s = step (FromGesture (Gesture.OnStatus "DOWNLOADING AI..."))
                   (step (Activate c) s).
Proof.
  unfold click. destruct (effectRuns s (interact c s)) eqn:E; [right | left].
  - unfold effectRuns in E. apply andb_true_iff in E as [Hm _].
    cbn [step]. rewrite Hm. reflexivity.
  - reflexivity.
Qed.

(** Entering gallery mode, or failing to, starts no effect. *)
Lemma click_gallery_entry (s : State) :
  galleryMode s = false -> click GalleryButton s = interact GalleryButton s.
Proof.
  intros Hg. apply click_no_effect.
  unfold effectRuns, interact, gestureMounted. simpl. rewrite Hg.
  destruct s as [sc rs b a d p g i]. simpl in *. subst g.
  destruct sc, b, d; reflexivity.
Qed.

End AppFacts.

(** The handler alone guards on the scene: called in a FORMED scene with
    birthday mode on it would enter gallery mode.  In that state the
    gallery button, its only caller, is not rendered. *)
Lemma gallery_toggle_ignores_birthday_mode :
  let s := App.interact App.BirthdayButton
             (App.interact App.SceneToggleButton App.initial) in
  App.galleryMode s = false /\
  App.sceneState s = FORMED /\
  App.birthdayMode s = true /\
  App.rendered App.GalleryButton s = false /\
  App.galleryMode (App.handleGalleryToggle s) = true.
Proof. cbv. repeat split; congruence. Qed.

(** C1: while [galleryMode] is false, an invocation of the gallery toggle
    (the gallery button being activated) changes no state at all if the
    scene is not FORMED or birthday mode is on, and it turns [galleryMode] on
    exactly when the scene is FORMED and birthday mode is off; whatever the
    event, gallery mode is entered only by the gallery button, from a FORMED
    scene with birthday mode off.  The scene is checked by the handler
    [handleGalleryToggle], birthday mode by the condition under which the
    button is rendered; the click starts no effect of the gesture
    controller, so the handler's update is all that happens. *)
Theorem gallery_entry_guard (s : App.State) :
  App.galleryMode s = false ->
  (App.sceneState s <> FORMED -> App.handleGalleryToggle s = s) /\
  (App.galleryMode (App.handleGalleryToggle s) = true <-> App.sceneState s = FORMED) /\
  (App.sceneState s <> FORMED \/ App.birthdayMode s = true ->
   App.interact App.GalleryButton s = s) /\
  (App.galleryMode (App.interact App.GalleryButton s) = true <->
   App.sceneState s = FORMED /\ App.birthdayMode s = false) /\
  (forall e : App.Event,
     App.galleryMode (App.step e s) = true ->
     e = App.Activate App.GalleryButton /\
     App.sceneState s = FORMED /\ App.birthdayMode s = false) /\
  App.click App.GalleryButton s = App.interact App.GalleryButton s.
Proof.
  intros Hg.
  refine (conj _ (conj _ (conj _ (conj _ (conj _ _))))).
  - intros Hne. now apply handleGalleryToggle_reject.
  - split.
    + intros H. destruct (App.sceneState s) eqn:E; [|reflexivity].
      rewrite handleGalleryToggle_reject in H; congruence.
    + intros E. rewrite handleGalleryToggle_enter by assumption. reflexivity.
  - intros H. unfold App.interact. simpl. rewrite Hg.
    destruct H as [H | H].
    + destruct (App.sceneState s); [reflexivity | congruence].
    + rewrite H. destruct (App.sceneState s); reflexivity.
  - split.
    + intros H. exact (proj2 (interact_enters_gallery App.GalleryButton s Hg H)).
    + intros [Hs Hb]. unfold App.interact. simpl. rewrite Hg, Hs, Hb. simpl.
      rewrite handleGalleryToggle_enter by assumption. reflexivity.
  - intros e H. now apply (step_enters_gallery e s).
  - now apply click_gallery_entry.
Qed.

Lemma gallery_entry_guard_witness :
  let s := App.interact App.BirthdayButton
             (App.interact App.SceneToggleButton App.initial) in
  App.interact App.GalleryButton s = s.
Proof.
  intros s.
  exact (proj1 (proj2 (proj2 (gallery_entry_guard s eq_refl)))
           (or_intror eq_refl)).
Defined.

(** C10: a successful entry into gallery mode through the toggle sets
    [currentPhotoIndex] to 0, and the toggle, entering or exiting, leaves
    every cell other than [galleryMode] and [currentPhotoIndex] as it was
    (in particular [sceneState], [birthdayMode] and [photoCount]). *)
Theorem gallery_toggle_frame (s : App.State) :
  let s' := App.handleGalleryToggle s in
  (App.galleryMode s = false -> App.galleryMode s' = true ->
   App.currentPhotoIndex s' = 0%Z) /\
  App.sceneState s' = App.sceneState s /\
  App.birthdayMode s' = App.birthdayMode s /\
  App.photoCount s' = App.photoCount s /\
  App.rotationSpeed s' = App.rotationSpeed s /\
  App.aiStatus s' = App.aiStatus s /\
  App.debugMode s' = App.debugMode s.
Proof.
  unfold App.handleGalleryToggle.
  destruct (App.galleryMode s) eqn:Hg; simpl.
  - repeat split; congruence.
  - destruct (App.sceneState s) eqn:Hs; simpl; repeat split; congruence.
Qed.

Lemma gallery_toggle_frame_witness :
  let s := App.interact App.SceneToggleButton App.initial in
  App.currentPhotoIndex (App.handleGalleryToggle s) = 0%Z.
Proof.
  intros s.
  exact (proj1 (gallery_toggle_frame s) eq_refl eq_refl).
Defined.

(** C4: for a current index in [0, totalGalleryPhotos), next-photo yields
    [(i + 1) mod total] and previous-photo yields [(i - 1 + total) mod total];
    from 0 the previous index is [total - 1], from [total - 1] the next index
    is 0, and both results stay in [0, totalGalleryPhotos). *)
Theorem gallery_index_wraps (s : App.State) :
  let i := App.currentPhotoIndex s in
  let n := App.totalGalleryPhotos in
  (0 <= i < n)%Z ->
  App.currentPhotoIndex (App.handleNextPhoto s) = ((i + 1) mod n)%Z /\
  App.currentPhotoIndex (App.handlePrevPhoto s) = ((i - 1 + n) mod n)%Z /\
  (i = 0%Z -> App.currentPhotoIndex (App.handlePrevPhoto s) = (n - 1)%Z) /\
  (i = (n - 1)%Z -> App.currentPhotoIndex (App.handleNextPhoto s) = 0%Z) /\
  (0 <= App.currentPhotoIndex (App.handleNextPhoto s) < n)%Z /\
  (0 <= App.currentPhotoIndex (App.handlePrevPhoto s) < n)%Z.
Proof.
  intros i n Hi. simpl. fold i.
  unfold App.nextPhoto, App.prevPhoto. fold n.
  assert (Hn : n = 52%Z) by reflexivity.
  rewrite !Z.rem_mod_nonneg by lia.
  repeat split.
  - intros ->. rewrite Hn. reflexivity.
  - intros ->. rewrite Hn. reflexivity.
  - apply Z.mod_pos_bound; lia.
  - apply Z.mod_pos_bound; lia.
  - apply Z.mod_pos_bound; lia.
  - apply Z.mod_pos_bound; lia.
Qed.

Lemma gallery_index_wraps_witness :
  App.currentPhotoIndex (App.handlePrevPhoto App.initial) = 51%Z /\
  App.currentPhotoIndex (App.handleNextPhoto App.initial) = 1%Z.
Proof.
  pose proof (gallery_index_wraps App.initial
                (conj (Z.le_refl 0) (eq_refl : (0 ?= 52)%Z = Lt))) as H.
  split.
  - exact (proj1 (proj2 (proj2 H)) eq_refl).
  - exact (proj1 H).
Defined.

(** C9: an upload of at least one file while no slot remains (limit 52)
    shows the limit alert and changes no state; while slots remain,
    [photoCount] grows by the number of files, capped by the remaining
    slots, so it never exceeds the limit, and no other cell changes. *)
Theorem upload_limit (fs : list string) (s : App.State) :
  fs <> [] ->
  let remaining := (TOTAL_NUMBERED_PHOTOS - App.photoCount s)%Z in
  let s' := fst (App.handlePhotoUpload (Some fs) s) in
  let effects := snd (App.handlePhotoUpload (Some fs) s) in
  ((remaining <= 0)%Z ->
   s' = s /\ effects = [App.AlertLimitReached 52]) /\
  ((0 < remaining)%Z ->
   App.photoCount s' = (App.photoCount s + Z.min (Z.of_nat (length fs)) remaining)%Z /\
   (App.photoCount s < App.photoCount s' <= TOTAL_NUMBERED_PHOTOS)%Z /\
   s' = App.setPhotoCount (fun _ => App.photoCount s') s).
Proof.
  intros Hfs remaining s' effects.
  subst s' effects. unfold App.handlePhotoUpload.
  assert (Hlen : (0 < Z.of_nat (length fs))%Z)
    by (destruct fs; [congruence | simpl; lia]).
  destruct (Z.eqb_spec (Z.of_nat (length fs)) 0) as [E|_]; [lia|].
  fold remaining.
  destruct (Z.leb_spec remaining 0) as [Hle|Hgt]; simpl.
  - split; [intros _; split; reflexivity | lia].
  - split; [lia|]. intros _.
    unfold App.setPhotoCount; simpl.
    unfold remaining, TOTAL_NUMBERED_PHOTOS in *.
    repeat split; lia.
Qed.

Lemma upload_limit_witness :
  let full := App.setPhotoCount (fun _ => 52%Z) App.initial in
  App.handlePhotoUpload (Some ["a.jpg"%string]) full
  = (full, [App.AlertLimitReached 52]).
Proof.
  intros full.
  pose proof (upload_limit ["a.jpg"%string] full
                ltac:(discriminate)) as [H _].
  destruct (H ltac:(vm_compute; discriminate)) as [H1 H2].
  rewrite (surjective_pairing (App.handlePhotoUpload _ full)).
  rewrite H1, H2. reflexivity.
Defined.

(** * Theorems: the gesture debouncer *)

Section GestureFacts.

Import Gesture.
Local Open Scope Z_scope.

Lemma Qgtb_true (a b : Q) : Qgtb a b = true <-> (b < a)%Q.
Proof.
  unfold Qgtb. rewrite negb_true_iff, <- not_true_iff_false, Qle_bool_iff.
  split; [apply Qnot_le_lt | apply Qlt_not_le].
Qed.

Lemma Qgtb_false (a b : Q) : Qgtb a b = false <-> (a <= b)%Q.
Proof.
  unfold Qgtb. rewrite negb_false_iff. apply Qle_bool_iff.
Qed.

Lemma sameLabel_true (name : string) (last : option string) :
  sameLabel name last = true <-> last = Some name.
Proof.
  destruct last as [l|]; simpl; [|split; discriminate].
  rewrite String.eqb_eq. split; congruence.
Qed.

Lemma sameLabel_false (name : string) (last : option string) :
  sameLabel name last = false <-> last <> Some name.
Proof.
  rewrite <- sameLabel_true. destruct (sameLabel name last); split; congruence.
Qed.

Lemma differs_true (t : SceneState) (cur : option SceneState) :
  differs t cur = true <-> cur <> Some t.
Proof.
  destruct cur as [[]|], t; simpl; split; congruence.
Qed.

(** The label map of lines 635-637. *)
Lemma targetOf_Some (name : string) (t : SceneState) :
  targetOf name = Some t ->
  (name = "Open_Palm"%string /\ t = CHAOS) \/
  (name = "Closed_Fist"%string /\ t = FORMED).
Proof.
  unfold targetOf.
  destruct (String.eqb_spec name "Closed_Fist") as [->|_];
    [intros [= <-]; right; split; reflexivity|].
  destruct (String.eqb_spec name "Open_Palm") as [->|_];
    [intros [= <-]; left; split; reflexivity | discriminate].
Qed.

(** A sample at or below the confidence threshold. *)
Lemma debounce_low (d : bool) (c : Category) (r : Refs) :
  (score c <= 0.5)%Q ->
  debounce d c r =
  ({| lastGesture := None; gestureCount := 0; currentState := currentState r |}, []).
Proof.
  intros H. unfold debounce. apply Qgtb_false in H. rewrite H. reflexivity.
Qed.

(** A qualifying sample with a new label. *)
Lemma debounce_new_label (d : bool) (c : Category) (r : Refs) :
  (0.5 < score c)%Q -> lastGesture r <> Some (categoryName c) ->
  debounce d c r =
  ({| lastGesture := Some (categoryName c); gestureCount := 1;
      currentState := currentState r |}, []).
Proof.
  intros H Hl. unfold debounce.
  apply Qgtb_true in H. rewrite H.
  apply sameLabel_false in Hl. rewrite Hl. reflexivity.
Qed.

(** A qualifying sample repeating the label, below the threshold count. *)
Lemma debounce_same_below (d : bool) (c : Category) (r : Refs) :
  (0.5 < score c)%Q -> lastGesture r = Some (categoryName c) ->
  gestureCount r + 1 <= 5 ->
  debounce d c r =
  ({| lastGesture := Some (categoryName c); gestureCount := gestureCount r + 1;
      currentState := currentState r |}, []).
Proof.
  intros H Hl Hc. unfold debounce.
  apply Qgtb_true in H. rewrite H.
  rewrite (proj2 (sameLabel_true _ _) Hl). simpl.
  destruct (Z.gtb_spec (gestureCount r + 1) 5); [lia|].
  rewrite Hl. reflexivity.
Qed.

(** A qualifying sample repeating the label and taking the count above 5. *)
Lemma debounce_same_above (d : bool) (c : Category) (r : Refs) :
  (0.5 < score c)%Q -> lastGesture r = Some (categoryName c) ->
  5 < gestureCount r + 1 ->
  transitions (snd (debounce d c r)) =
    match targetOf (categoryName c) with
    | Some t => if differs t (currentState r) then [t] else []
    | None => []
    end /\
  gestureCount (fst (debounce d c r)) = gestureCount r + 1 /\
  lastGesture (fst (debounce d c r)) = Some (categoryName c) /\
  currentState (fst (debounce d c r)) =
    match targetOf (categoryName c) with
    | Some t => Some t
    | None => currentState r
    end.
Proof.
  intros H Hl Hc. unfold debounce.
  apply Qgtb_true in H. rewrite H.
  rewrite (proj2 (sameLabel_true _ _) Hl). simpl.
  destruct (Z.gtb_spec (gestureCount r + 1) 5); [|lia].
  destruct (targetOf (categoryName c)) as [t|]; simpl; [|auto].
  destruct (differs t (currentState r)) eqn:E; simpl.
  - destruct d; simpl; auto.
  - repeat split; try assumption.
    destruct (currentState r) as [cur|]; simpl in E; [|discriminate].
    destruct t, cur; simpl in E; congruence.
Qed.

(** Every transition event of a sample, read back from the code. *)
Lemma debounce_event (d : bool) (c : Category) (r : Refs) (t : SceneState) :
  In t (transitions (snd (debounce d c r))) ->
  (0.5 < score c)%Q /\
  lastGesture r = Some (categoryName c) /\
  5 < gestureCount r + 1 /\
  gestureCount (fst (debounce d c r)) = gestureCount r + 1 /\
  targetOf (categoryName c) = Some t /\
  currentState r <> Some t /\
  currentState (fst (debounce d c r)) = Some t /\
  transitions (snd (debounce d c r)) = [t].
Proof.
  destruct (Qlt_le_dec 0.5 (score c)) as [Hq|Hq];
    [|rewrite debounce_low by assumption; simpl; tauto].
  destruct (sameLabel (categoryName c) (lastGesture r)) eqn:Hl.
  - apply sameLabel_true in Hl.
    destruct (Z_lt_le_dec 5 (gestureCount r + 1)) as [Hc|Hc];
      [|rewrite debounce_same_below by assumption; simpl; tauto].
    destruct (debounce_same_above d c r Hq Hl Hc) as (He & Hn & _ & Hs).
    rewrite He, Hn, Hs.
    destruct (targetOf (categoryName c)) as [t'|]; [|simpl; tauto].
    destruct (differs t' (currentState r)) eqn:E; [|simpl; tauto].
    intros [<-|[]]. apply differs_true in E. auto 10.
  - apply sameLabel_false in Hl.
    rewrite debounce_new_label by assumption. simpl. tauto.
Qed.

Lemma debounce_latched (d : bool) (c : Category) (r : Refs) :
  latched r -> latched (fst (debounce d c r)).
Proof.
  intros Hr.
  destruct (Qlt_le_dec 0.5 (score c)) as [Hq|Hq];
    [|rewrite debounce_low by assumption; unfold latched; simpl; lia].
  destruct (sameLabel (categoryName c) (lastGesture r)) eqn:Hl.
  - apply sameLabel_true in Hl.
    destruct (Z_lt_le_dec 5 (gestureCount r + 1)) as [Hc|Hc];
      [|rewrite debounce_same_below by assumption; unfold latched; simpl; lia].
    destruct (debounce_same_above d c r Hq Hl Hc) as (_ & Hn & Hg & Hs).
    unfold latched. rewrite Hg, Hs. intros _ name t [= <-] Ht.
    rewrite Ht. reflexivity.
  - apply sameLabel_false in Hl.
    rewrite debounce_new_label by assumption. unfold latched; simpl; lia.
Qed.

Lemma reachable_latched (r : Refs) : reachable r -> latched r.
Proof.
  induction 1 as [|d res r Hr IH].
  - unfold latched; simpl; lia.
  - unfold processFrame. destruct (gestures res) as [|c ?].
    + unfold latched; simpl; lia.
    + pose proof (debounce_latched d c r IH) as H.
      destruct (debounce d c r); exact H.
Qed.

(** In a reachable state an event can only be the one of the sixth sample. *)
Lemma reachable_event_sixth (d : bool) (c : Category) (r : Refs) (t : SceneState) :
  reachable r -> In t (transitions (snd (debounce d c r))) ->
  gestureCount r = 5 /\ gestureCount (fst (debounce d c r)) = 6.
Proof.
  intros Hr Hin. apply reachable_latched in Hr.
  destruct (debounce_event d c r t Hin) as (_ & Hl & Hc & Hn & Ht & Hne & _).
  assert (gestureCount r = 5); [|lia].
  destruct (Z_lt_le_dec 5 (gestureCount r)) as [Hgt|Hle]; [|lia].
  exfalso. apply Hne. exact (Hr Hgt _ _ Hl Ht).
Qed.

(** What one sample does to the latched state and the event stream. *)
Lemma debounce_step (d : bool) (c : Category) (r : Refs) :
  (transitions (snd (debounce d c r)) = [] /\
   currentState (fst (debounce d c r)) = currentState r) \/
  (exists t, transitions (snd (debounce d c r)) = [t] /\
             currentState r <> Some t /\
             currentState (fst (debounce d c r)) = Some t).
Proof.
  destruct (Qlt_le_dec 0.5 (score c)) as [Hq|Hq];
    [|rewrite debounce_low by assumption; left; split; reflexivity].
  destruct (sameLabel (categoryName c) (lastGesture r)) eqn:Hl.
  - apply sameLabel_true in Hl.
    destruct (Z_lt_le_dec 5 (gestureCount r + 1)) as [Hc|Hc];
      [|rewrite debounce_same_below by assumption; left; split; reflexivity].
    destruct (debounce_same_above d c r Hq Hl Hc) as (He & _ & _ & Hs).
    rewrite He, Hs.
    destruct (targetOf (categoryName c)) as [t|]; [|left; split; reflexivity].
    destruct (differs t (currentState r)) eqn:E.
    + right. exists t. apply differs_true in E. auto.
    + left. split; [reflexivity|].
      destruct (currentState r) as [cur|]; simpl in E; [|discriminate].
      destruct t, cur; simpl in E; congruence.
  - apply sameLabel_false in Hl.
    rewrite debounce_new_label by assumption. left; split; reflexivity.
Qed.

End GestureFacts.

Section GestureRuns.

Import Gesture.
Local Open Scope Z_scope.

Lemma feed_app (d : bool) (cs1 cs2 : list Category) (r : Refs) :
  feed d (cs1 ++ cs2) r =
  (fst (feed d cs2 (fst (feed d cs1 r))),
   snd (feed d cs1 r) ++ snd (feed d cs2 (fst (feed d cs1 r)))).
Proof.
  revert r. induction cs1 as [|c cs1 IH]; intros r; simpl.
  - now destruct (feed d cs2 r).
  - destruct (debounce d c r) as [r1 cbs]. rewrite IH.
    destruct (feed d cs1 r1) as [r2 evs]. reflexivity.
Qed.

(** Continuing a run of [name] while the count stays at or below 5:
    nothing is emitted and the count advances by one per sample. *)
Lemma feed_run_below (d : bool) (name : string) (scores : list Q) :
  forall r : Refs,
    lastGesture r = Some name ->
    Forall (Qlt 0.5) scores ->
    gestureCount r + Z.of_nat (length scores) <= 5 ->
    feed d (sameLabelRun name scores) r =
    ({| lastGesture := Some name;
        gestureCount := gestureCount r + Z.of_nat (length scores);
        currentState := currentState r |},
     repeat [] (length scores)).
Proof.
  induction scores as [|q scores IH]; intros r Hl Hq Hc.
  - simpl. rewrite Z.add_0_r. destruct r; simpl in *. now subst.
  - inversion Hq as [|? ? Hq1 Hq2]; subst. simpl length in *.
    cbn [sameLabelRun map feed]. fold (sameLabelRun name scores).
    rewrite (debounce_same_below d (mkCategory name q) r) by (simpl; auto; lia).
    rewrite IH by (simpl; auto; lia). simpl.
    do 2 f_equal. lia.
Qed.

(** A fresh run of at most five qualifying samples. *)
Lemma feed_fresh_run (d : bool) (name : string) (q : Q) (scores : list Q) (r : Refs) :
  lastGesture r <> Some name ->
  Forall (Qlt 0.5) (q :: scores) ->
  (length (q :: scores) <= 5)%nat ->
  feed d (sameLabelRun name (q :: scores)) r =
  ({| lastGesture := Some name;
      gestureCount := Z.of_nat (length (q :: scores));
      currentState := currentState r |},
   repeat [] (length (q :: scores))).
Proof.
  intros Hl Hq Hn. inversion Hq as [|? ? Hq1 Hq2]; subst.
  cbn [sameLabelRun map feed]. fold (sameLabelRun name scores).
  rewrite (debounce_new_label d (mkCategory name q) r) by (simpl; auto).
  simpl in Hn.
  rewrite feed_run_below by (simpl; auto; lia). simpl.
  do 2 f_equal. lia.
Qed.

(** A list of six, split as five and one. *)
Lemma six_split {A : Type} (l : list A) :
  length l = 6%nat -> exists a l' b, l = a :: l' ++ [b] /\ length l' = 4%nat.
Proof.
  destruct l as [|a [|b [|c [|e [|f [|g [|h l]]]]]]]; try discriminate.
  intros _. exists a, [b; c; e; f], g. split; reflexivity.
Qed.

(** A fresh run of exactly six qualifying samples: silence for five, and
    on the sixth the event of the label, if it has one that differs from
    the latched state. *)
Lemma feed_fresh_six (d : bool) (name : string) (scores : list Q) (r : Refs) :
  lastGesture r <> Some name ->
  Forall (Qlt 0.5) scores ->
  length scores = 6%nat ->
  snd (feed d (sameLabelRun name scores) r) =
    [[]; []; []; []; [];
     match targetOf name with
     | Some t => if differs t (currentState r) then [t] else []
     | None => []
     end] /\
  gestureCount (fst (feed d (sameLabelRun name scores) r)) = 6.
Proof.
  intros Hl Hq Hn.
  destruct (six_split scores Hn) as (a & l & b & -> & Hlen).
  change (a :: l ++ [b]) with ((a :: l) ++ [b]) in *.
  apply Forall_app in Hq as [Hq1 Hq2].
  unfold sameLabelRun. rewrite map_app. fold (sameLabelRun name (a :: l)).
  rewrite feed_app.
  rewrite (feed_fresh_run d name a l r) by (simpl; auto; lia).
  cbn [fst snd map feed].
  inversion Hq2 as [|? ? Hb _]; subst.
  destruct (debounce_same_above d (mkCategory name b)
              {| lastGesture := Some name;
                 gestureCount := Z.of_nat (length (a :: l));
                 currentState := currentState r |})
    as (He & Hc & _); [assumption | reflexivity | simpl; lia |].
  destruct (debounce d (mkCategory name b) _) as [r' cbs].
  cbn [fst snd categoryName currentState gestureCount] in *.
  rewrite He, Hc. simpl length. rewrite Hlen. simpl. split; reflexivity.
Qed.

End GestureRuns.

Section GestureTraces.

Import Gesture.
Local Open Scope Z_scope.

Lemma qualifies_true (c : Category) : qualifies c = true <-> (0.5 < score c)%Q.
Proof. apply Qgtb_true. Qed.

Lemma qualifies_false (c : Category) : qualifies c = false <-> (score c <= 0.5)%Q.
Proof. apply Qgtb_false. Qed.

Lemma feed_length (d : bool) (cs : list Category) :
  forall r, length (snd (feed d cs r)) = length cs.
Proof.
  induction cs as [|c cs IH]; intros r; [reflexivity|].
  cbn [feed]. destruct (debounce d c r) as [r1 cbs].
  specialize (IH r1). destruct (feed d cs r1) as [r2 evs].
  simpl in *. now rewrite IH.
Qed.

Lemma feed_cons (d : bool) (c : Category) (cs : list Category) (r : Refs) :
  feed d (c :: cs) r =
  (fst (feed d cs (fst (debounce d c r))),
   transitions (snd (debounce d c r)) :: snd (feed d cs (fst (debounce d c r)))).
Proof.
  cbn [feed]. destruct (debounce d c r) as [r1 cbs]. cbn [fst snd].
  now destruct (feed d cs r1).
Qed.

(** The sample after a prefix is processed in the state the prefix leaves,
    and what it emits is the entry at its position. *)
Lemma feed_snoc (d : bool) (pre : list Category) (c : Category) (r : Refs) :
  fst (feed d (pre ++ [c]) r) = fst (debounce d c (fst (feed d pre r))).
Proof.
  rewrite feed_app. cbn [fst]. now rewrite feed_cons.
Qed.

Lemma feed_lookup (d : bool) (pre : list Category) (c : Category)
    (post : list Category) (r : Refs) :
  snd (feed d (pre ++ c :: post) r) !! length pre
  = Some (transitions (snd (debounce d c (fst (feed d pre r))))).
Proof.
  rewrite feed_app. cbn [snd].
  rewrite lookup_app_r by (rewrite feed_length; lia).
  rewrite feed_length, Nat.sub_diag, feed_cons. reflexivity.
Qed.

Lemma feed_latched (d : bool) (cs : list Category) :
  forall r, latched r -> latched (fst (feed d cs r)).
Proof.
  induction cs as [|c cs IH]; intros r Hr; [exact Hr|].
  rewrite feed_cons. cbn [fst]. apply IH. now apply debounce_latched.
Qed.

(** The counter is the length of the run the last sample closes, and the
    stored label is the label of that run. *)
Lemma feed_counts (d : bool) (cs : list Category) (r0 : Refs) :
  lastGesture r0 = None -> gestureCount r0 = 0 ->
  gestureCount (fst (feed d cs r0)) = Z.of_nat (trailingRun (rev cs)) /\
  lastGesture (fst (feed d cs r0)) = trailingLabel (rev cs).
Proof.
  intros Hl0 Hc0. induction cs as [|c pre IH] using rev_ind.
  - simpl. auto.
  - rewrite feed_snoc, rev_app_distr. cbn [rev app].
    destruct IH as [IHc IHl].
    set (r := fst (feed d pre r0)) in *.
    unfold trailingRun, trailingLabel.
    destruct (qualifies c) eqn:Hq.
    + apply qualifies_true in Hq.
      destruct (sameLabel (categoryName c) (lastGesture r)) eqn:Hs.
      * apply sameLabel_true in Hs.
        assert (Hrun : sameRun (categoryName c) (rev pre)
                       = trailingRun (rev pre)).
        { rewrite Hs in IHl. unfold trailingLabel, trailingRun in *.
          destruct (rev pre) as [|c' older]; [discriminate IHl|].
          cbn [sameRun]. destruct (qualifies c'); [|discriminate IHl].
          injection IHl as IHl. rewrite <- IHl, String.eqb_refl. reflexivity. }
        rewrite Hrun.
        destruct (Z_lt_le_dec 5 (gestureCount r + 1)) as [H5|H5].
        -- destruct (debounce_same_above d c r Hq Hs H5) as (_ & -> & -> & _).
           split; [lia | reflexivity].
        -- rewrite debounce_same_below by assumption. cbn [fst gestureCount lastGesture].
           split; [lia | reflexivity].
      * apply sameLabel_false in Hs.
        rewrite debounce_new_label by assumption. cbn [fst gestureCount lastGesture].
        split; [|reflexivity].
        assert (Hrun : sameRun (categoryName c) (rev pre) = O).
        { unfold trailingLabel in IHl.
          destruct (rev pre) as [|c' older]; [reflexivity|].
          cbn [sameRun]. destruct (qualifies c'); [|reflexivity]. simpl.
          destruct (String.eqb_spec (categoryName c') (categoryName c)) as [E|_];
            [|reflexivity].
          exfalso. apply Hs. rewrite IHl, E. reflexivity. }
        rewrite Hrun. reflexivity.
    + apply qualifies_false in Hq. rewrite debounce_low by assumption.
      cbn [fst gestureCount lastGesture]. split; reflexivity.
Qed.

(** A sample emits exactly on the sixth sample of its run. *)
Lemma feed_event (d : bool) (pre : list Category) (c : Category) (r0 : Refs) :
  lastGesture r0 = None -> gestureCount r0 = 0 ->
  transitions (snd (debounce d c (fst (feed d pre r0))))
  = sixthSampleEvent (trailingRun (c :: rev pre)) c
                     (currentState (fst (feed d pre r0))).
Proof.
  intros Hl0 Hc0.
  destruct (feed_counts d (pre ++ [c]) r0 Hl0 Hc0) as [Hn _].
  destruct (feed_counts d pre r0 Hl0 Hc0) as [Hp _].
  rewrite feed_snoc, rev_app_distr in Hn. cbn [rev app] in Hn.
  assert (Hlat : latched (fst (feed d pre r0))).
  { apply feed_latched. unfold latched. rewrite Hc0. lia. }
  set (r := fst (feed d pre r0)) in *.
  set (run := trailingRun (c :: rev pre)) in *.
  unfold sixthSampleEvent.
  destruct (Qlt_le_dec 0.5 (score c)) as [Hq|Hq].
  2:{ rewrite debounce_low in * by assumption. cbn [fst snd gestureCount] in *.
      destruct (Nat.eqb_spec run 6); [lia | reflexivity]. }
  destruct (sameLabel (categoryName c) (lastGesture r)) eqn:Hs.
  2:{ apply sameLabel_false in Hs.
      rewrite debounce_new_label in * by assumption.
      cbn [fst snd gestureCount] in *.
      destruct (Nat.eqb_spec run 6); [lia | reflexivity]. }
  apply sameLabel_true in Hs.
  destruct (Z_lt_le_dec 5 (gestureCount r + 1)) as [H5|H5].
  2:{ rewrite debounce_same_below in * by assumption.
      cbn [fst snd gestureCount] in *.
      destruct (Nat.eqb_spec run 6); [lia | reflexivity]. }
  destruct (debounce_same_above d c r Hq Hs H5) as (He & Hc & _).
  rewrite He. rewrite Hc in Hn.
  destruct (Nat.eqb_spec run 6) as [E|E]; [reflexivity|].
  assert (H6 : 5 < gestureCount r) by lia.
  destruct (targetOf (categoryName c)) as [t|] eqn:Ht; [|reflexivity].
  rewrite (Hlat H6 _ _ Hs Ht). simpl.
  destruct t; reflexivity.
Qed.

(** The latched state is the last event emitted, if any. *)
Lemma feed_currentState (d : bool) (cs : list Category) :
  forall r,
    currentState (fst (feed d cs r))
    = match last (concat (snd (feed d cs r))) with
      | Some t => Some t
      | None => currentState r
      end.
Proof.
  induction cs as [|c cs IH]; intros r; [reflexivity|].
  rewrite feed_cons. cbn [fst snd concat]. rewrite IH.
  destruct (debounce_step d c r) as [[He Hs] | (t & He & _ & Hs)];
    rewrite He, Hs; [reflexivity|].
  cbn [app].
  destruct (concat (snd (feed d cs (fst (debounce d c r))))) as [|t' l];
    [reflexivity|].
  rewrite last_cons_cons.
  destruct (last (t' :: l)) eqn:El; [reflexivity|].
  apply last_None in El. discriminate.
Qed.

End GestureTraces.

(** C2: a transition event is emitted only by a qualifying sample (confidence
    above 0.5) that repeats the previous label and takes the counter above 5,
    and in the states the frame loop reaches that is the sixth sample of the
    run exactly; the event is the state the label maps to (Open_Palm to
    CHAOS, Closed_Fist to FORMED) and it differs from the latched state; a
    qualifying sample with a different label sets the counter to 1; a run of
    at most five identical qualifying samples emits nothing; the sixth emits
    the event when the mapped state differs from the latched one.  Over a
    whole sequence of samples fed from a reset debouncer: after every sample
    the counter is the number of consecutive qualifying samples with that
    sample's label that end with it (0 if the sample does not qualify), the
    sample emits exactly when that number is 6, and the latched state is the
    last event emitted. *)
Theorem debounce_six_consecutive :
  (forall (d : bool) (c : Gesture.Category) (r : Gesture.Refs) (t : SceneState),
     Gesture.reachable r ->
     In t (Gesture.transitions (snd (Gesture.debounce d c r))) ->
     (0.5 < Gesture.score c)%Q /\
     Gesture.lastGesture r = Some (Gesture.categoryName c) /\
     Gesture.gestureCount r = 5%Z /\
     Gesture.gestureCount (fst (Gesture.debounce d c r)) = 6%Z /\
     ((Gesture.categoryName c = "Open_Palm"%string /\ t = CHAOS) \/
      (Gesture.categoryName c = "Closed_Fist"%string /\ t = FORMED)) /\
     Gesture.currentState r <> Some t /\
     Gesture.currentState (fst (Gesture.debounce d c r)) = Some t) /\
  (forall (d : bool) (c : Gesture.Category) (r : Gesture.Refs),
     (0.5 < Gesture.score c)%Q ->
     Gesture.lastGesture r <> Some (Gesture.categoryName c) ->
     Gesture.gestureCount (fst (Gesture.debounce d c r)) = 1%Z /\
     Gesture.lastGesture (fst (Gesture.debounce d c r)) = Some (Gesture.categoryName c)) /\
  (forall (d : bool) (name : string) (scores : list Q) (r : Gesture.Refs),
     Gesture.lastGesture r <> Some name ->
     Forall (Qlt 0.5) scores ->
     (length scores <= 5)%nat ->
     snd (Gesture.feed d (Gesture.sameLabelRun name scores) r)
     = repeat [] (length scores)) /\
  (forall (d : bool) (name : string) (scores : list Q) (r : Gesture.Refs),
     Gesture.lastGesture r <> Some name ->
     Forall (Qlt 0.5) scores ->
     length scores = 6%nat ->
     snd (Gesture.feed d (Gesture.sameLabelRun name scores) r)
     = [[]; []; []; []; [];
        match Gesture.targetOf name with
        | Some t => if Gesture.differs t (Gesture.currentState r) then [t] else []
        | None => []
        end]) /\
  Gesture.targetOf "Open_Palm" = Some CHAOS /\
  Gesture.targetOf "Closed_Fist" = Some FORMED /\
  (forall (d : bool) (pre : list Gesture.Category) (c : Gesture.Category)
          (post : list Gesture.Category) (r0 : Gesture.Refs),
     Gesture.lastGesture r0 = None ->
     Gesture.gestureCount r0 = 0%Z ->
     Gesture.gestureCount (fst (Gesture.feed d (pre ++ [c]) r0))
     = Z.of_nat (Gesture.trailingRun (c :: rev pre)) /\
     Gesture.lastGesture (fst (Gesture.feed d (pre ++ [c]) r0))
     = Gesture.trailingLabel (c :: rev pre) /\
     snd (Gesture.feed d (pre ++ c :: post) r0) !! length pre
     = Some (Gesture.sixthSampleEvent
               (Gesture.trailingRun (c :: rev pre)) c
               (Gesture.currentState (fst (Gesture.feed d pre r0))))) /\
  (forall (d : bool) (cs : list Gesture.Category) (r : Gesture.Refs),
     Gesture.currentState (fst (Gesture.feed d cs r))
     = match last (concat (snd (Gesture.feed d cs r))) with
       | Some t => Some t
       | None => Gesture.currentState r
       end).
Proof.
  refine (conj _ (conj _ (conj _ (conj _ (conj eq_refl (conj eq_refl
           (conj _ _))))))).
  - intros d c r t Hr Hin.
    destruct (reachable_event_sixth d c r t Hr Hin) as [H5 H6].
    destruct (debounce_event d c r t Hin) as (Hq & Hl & _ & _ & Ht & Hne & Hs & _).
    apply targetOf_Some in Ht. auto 10.
  - intros d c r Hq Hl. rewrite debounce_new_label by assumption. auto.
  - intros d name [|q scores] r Hl Hq Hn; [reflexivity|].
    rewrite feed_fresh_run by assumption. reflexivity.
  - intros d name scores r Hl Hq Hn.
    apply feed_fresh_six; assumption.
  - intros d pre c post r0 Hl0 Hc0.
    destruct (feed_counts d (pre ++ [c]) r0 Hl0 Hc0) as [Hn Hl].
    rewrite rev_app_distr in Hn, Hl. cbn [rev app] in Hn, Hl.
    refine (conj Hn (conj Hl _)).
    rewrite feed_lookup. f_equal. now apply feed_event.
  - intros d cs r. apply feed_currentState.
Qed.

Lemma debounce_six_consecutive_witness :
  let fist := Gesture.mkCategory "Closed_Fist" in
  let samples := [fist 0.9; fist 0.9; fist 0.9; fist 0.9; fist 0.9; fist 0.3]%Q in
  Gesture.gestureCount
    (fst (Gesture.feed false (samples ++ [fist 0.9%Q]) Gesture.initialRefs)) = 1%Z /\
  snd (Gesture.feed false (samples ++ [fist 0.9%Q]) Gesture.initialRefs) !! 6%nat
  = Some [].
Proof.
  intros fist samples.
  destruct (proj1 (proj2 (proj2 (proj2 (proj2 (proj2 (proj2
              debounce_six_consecutive))))))
              false samples (fist 0.9%Q) [] Gesture.initialRefs eq_refl eq_refl)
    as (Hn & _ & He).
  split; [exact Hn | exact He].
Defined.

(** C3, as stated, fails: after three Open_Palm samples a qualifying
    Closed_Fist sample leaves the counter at 1 and the label at Closed_Fist,
    not at 0 and null. *)
Lemma mismatch_restarts_at_one :
  let r := fst (Gesture.feed false
                  (Gesture.sameLabelRun "Open_Palm" [0.9; 0.9; 0.9]%Q)
                  Gesture.initialRefs) in
  let c := Gesture.mkCategory "Closed_Fist" 0.9 in
  let r' := fst (Gesture.debounce false c r) in
  Gesture.lastGesture r = Some "Open_Palm"%string /\
  Gesture.lastGesture r <> Some (Gesture.categoryName c) /\
  Gesture.gestureCount r' = 1%Z /\
  Gesture.lastGesture r' = Some "Closed_Fist"%string /\
  ~ (Gesture.gestureCount r' = 0%Z /\ Gesture.lastGesture r' = None).
Proof.
  vm_compute. repeat split; try congruence. intros [H _]. discriminate H.
Qed.

(** C3 (amended): a sample with confidence at or below 0.5 emits nothing,
    keeps the latched state and resets the counter to 0 and the label to
    null; a sample with confidence above 0.5 whose label differs from the
    previous label emits nothing, keeps the latched state and sets the
    counter to 1 and the label to the sample's label. *)
Theorem debounce_reset_cases (d : bool) (c : Gesture.Category) (r : Gesture.Refs) :
  ((Gesture.score c <= 0.5)%Q ->
   Gesture.debounce d c r =
   ({| Gesture.lastGesture := None; Gesture.gestureCount := 0;
       Gesture.currentState := Gesture.currentState r |}, [])) /\
  ((0.5 < Gesture.score c)%Q ->
   Gesture.lastGesture r <> Some (Gesture.categoryName c) ->
   Gesture.debounce d c r =
   ({| Gesture.lastGesture := Some (Gesture.categoryName c);
       Gesture.gestureCount := 1;
       Gesture.currentState := Gesture.currentState r |}, [])).
Proof.
  split.
  - apply debounce_low.
  - apply debounce_new_label.
Qed.

Lemma debounce_reset_cases_witness :
  Gesture.debounce true (Gesture.mkCategory "Open_Palm" 0.5)
    {| Gesture.lastGesture := Some "Open_Palm"%string; Gesture.gestureCount := 5;
       Gesture.currentState := Some FORMED |}
  = ({| Gesture.lastGesture := None; Gesture.gestureCount := 0;
        Gesture.currentState := Some FORMED |}, []).
Proof.
  refine (proj1 (debounce_reset_cases true (Gesture.mkCategory "Open_Palm" 0.5)
            {| Gesture.lastGesture := Some "Open_Palm"%string;
               Gesture.gestureCount := 5;
               Gesture.currentState := Some FORMED |}) _).
  vm_compute. discriminate.
Defined.

(** * Theorems: the layout generator and the gallery ring *)

Section GeometryFacts.

Import THREE.
Local Open Scope R_scope.

(** About the z axis, [applyAxisAngle] is the plane rotation by [a]. *)
Lemma applyAxisAngle_z (v : Vector3.t) (a : R) :
  Vector3.applyAxisAngle v (Vector3.mk 0 0 1) a =
  Vector3.mk (Vector3.x v * cos a - Vector3.y v * sin a)
             (Vector3.x v * sin a + Vector3.y v * cos a)
             (Vector3.z v).
Proof.
  unfold Vector3.applyAxisAngle. cbn [Vector3.x Vector3.y Vector3.z].
  replace (sin a) with (sin (2 * (a / 2))) by (f_equal; lra).
  replace (cos a) with (cos (2 * (a / 2))) by (f_equal; lra).
  rewrite sin_2a, cos_2a_sin. f_equal; ring.
Qed.

Lemma sin2_cos2_mult (a : R) : sin a * sin a + cos a * cos a = 1.
Proof. pose proof (sin2_cos2 a) as H. unfold Rsqr in H. exact H. Qed.

(** Rotating two points about z and translating both keeps their
    distance. *)
Lemma rotate_translate_distance (p c o : Vector3.t) (a : R) :
  Vector3.distanceToSquared
    (Vector3.add (Vector3.applyAxisAngle p (Vector3.mk 0 0 1) a) o)
    (Vector3.add (Vector3.applyAxisAngle c (Vector3.mk 0 0 1) a) o)
  = Vector3.distanceToSquared p c.
Proof.
  rewrite !applyAxisAngle_z. unfold Vector3.distanceToSquared, Vector3.add.
  cbn [Vector3.x Vector3.y Vector3.z].
  pose proof (sin2_cos2_mult a) as H.
  set (S := sin a) in *. set (C := cos a) in *.
  replace ((Vector3.x p * C - Vector3.y p * S + Vector3.x o
            - (Vector3.x c * C - Vector3.y c * S + Vector3.x o))
           * (Vector3.x p * C - Vector3.y p * S + Vector3.x o
              - (Vector3.x c * C - Vector3.y c * S + Vector3.x o))
           + (Vector3.x p * S + Vector3.y p * C + Vector3.y o
              - (Vector3.x c * S + Vector3.y c * C + Vector3.y o))
             * (Vector3.x p * S + Vector3.y p * C + Vector3.y o
                - (Vector3.x c * S + Vector3.y c * C + Vector3.y o)))
    with (((Vector3.x p - Vector3.x c) * (Vector3.x p - Vector3.x c)
           + (Vector3.y p - Vector3.y c) * (Vector3.y p - Vector3.y c))
          * (S * S + C * C)) by ring.
  rewrite H. ring.
Qed.

End GeometryFacts.

(** C5: for [N > 0] the ring angle of photo [i] under focus [f] is
    [2 PI i / N - 2 PI f / N], its position lies in the horizontal plane
    [y = 0] on the circle of radius 20 about the vertical axis, and the photo
    with [i = f] has angle 0 and sits at [(0, 0, 20)] on the positive z axis,
    whatever [f] is. *)
Theorem gallery_focus_front (i N f : Z) :
  (0 < N)%Z ->
  Gallery.galleryAngle i N f
  = (2 * PI * IZR i / IZR N - 2 * PI * IZR f / IZR N)%R /\
  Gallery.getGalleryPosition i N f
  = THREE.Vector3.mk (sin (Gallery.galleryAngle i N f) * 20) 0
                     (cos (Gallery.galleryAngle i N f) * 20) /\
  (THREE.Vector3.x (Gallery.getGalleryPosition i N f)
   * THREE.Vector3.x (Gallery.getGalleryPosition i N f)
   + THREE.Vector3.z (Gallery.getGalleryPosition i N f)
     * THREE.Vector3.z (Gallery.getGalleryPosition i N f)
   = 20 * 20)%R /\
  Gallery.galleryAngle f N f = 0%R /\
  Gallery.getGalleryPosition f N f = THREE.Vector3.mk 0 0 20.
Proof.
  intros HN.
  assert (HN' : IZR N <> 0%R) by (apply not_0_IZR; lia).
  assert (H0 : Gallery.galleryAngle f N f = 0%R)
    by (unfold Gallery.galleryAngle; ring).
  repeat split.
  - unfold Gallery.galleryAngle. field. exact HN'.
  - unfold Gallery.getGalleryPosition, Gallery.radius.
    cbn [THREE.Vector3.x THREE.Vector3.z].
    pose proof (sin2_cos2_mult (Gallery.galleryAngle i N f)) as H.
    set (S := sin _) in *. set (C := cos _) in *.
    replace (S * 20 * (S * 20) + C * 20 * (C * 20))%R
      with ((S * S + C * C) * (20 * 20))%R by ring.
    rewrite H. ring.
  - exact H0.
  - unfold Gallery.getGalleryPosition. rewrite H0, sin_0, cos_0.
    unfold Gallery.radius. f_equal; ring.
Qed.

Lemma gallery_focus_front_witness :
  Gallery.getGalleryPosition 7 52 7 = THREE.Vector3.mk 0 0 20.
Proof.
  exact (proj2 (proj2 (proj2 (proj2
           (gallery_focus_front 7 52 7 (eq_refl : (0 ?= 52)%Z = Lt)))))).
Defined.

(** C7: index 0 and 1 give type EYE, index 2 gives NOSE, indices 3 to 8
    give WHISKER; for 3 to 5 (left side, -1) the z rotation is
    [PI/2 - rowTilt] and positive, for 6 to 8 (right side, +1) it is
    [-PI/2 + rowTilt] and negative, the row tilt being 0.15, 0, -0.15 from
    the top row down.  No random draw is involved. *)
Theorem layout_face_features (index : Z) (rnd : nat -> R) (n : nat) :
  let k := fst (Layout.getHelloKittyData index rnd n) in
  let rz := THREE.Euler.z (Layout.rotation k) in
  ((index = 0 \/ index = 1)%Z -> Layout.type k = Layout.EYE) /\
  (index = 2%Z -> Layout.type k = Layout.NOSE) /\
  ((3 <= index <= 8)%Z -> Layout.type k = Layout.WHISKER) /\
  ((3 <= index <= 5)%Z ->
   Layout.whiskerSide index = (-1)%Z /\
   rz = (PI / 2 - Layout.rowTilt (index - 3))%R /\ (0 < rz)%R) /\
  ((6 <= index <= 8)%Z ->
   Layout.whiskerSide index = 1%Z /\
   rz = (- PI / 2 + Layout.rowTilt (index - 6))%R /\ (rz < 0)%R) /\
  (Layout.rowTilt 0 = 0.15 /\ Layout.rowTilt 1 = 0 /\ Layout.rowTilt 2 = -0.15)%R.
Proof.
  intros k rz. subst rz k.
  pose proof PI2_3_2 as HPI.
  refine (conj _ (conj _ (conj _ (conj _ (conj _ _))))).
  - intros [-> | ->]; reflexivity.
  - intros ->; reflexivity.
  - intros H.
    assert (index = 3 \/ index = 4 \/ index = 5 \/ index = 6 \/ index = 7
            \/ index = 8)%Z as Hi by lia.
    destruct Hi as [-> | [-> | [-> | [-> | [-> | ->]]]]]; reflexivity.
  - intros H.
    assert (index = 3 \/ index = 4 \/ index = 5)%Z as Hi by lia.
    destruct Hi as [-> | [-> | ->]]; (split; [reflexivity|]);
      (split; [reflexivity|]); cbn;
      unfold Layout.rowTilt, Layout.whiskerRow, Layout.tilt; simpl; lra.
  - intros H.
    assert (index = 6 \/ index = 7 \/ index = 8)%Z as Hi by lia.
    destruct Hi as [-> | [-> | ->]]; (split; [reflexivity|]);
      (split; [reflexivity|]); cbn;
      unfold Layout.rowTilt, Layout.whiskerRow, Layout.tilt; simpl; lra.
  - unfold Layout.rowTilt, Layout.tilt; simpl.
    refine (conj _ (conj _ _)); lra.
Qed.

Lemma layout_face_features_witness :
  Layout.type (Rand.run (Layout.getHelloKittyData 6) (fun _ => 0%R)) = Layout.WHISKER /\
  (THREE.Euler.z (Layout.rotation (Rand.run (Layout.getHelloKittyData 6) (fun _ => 0%R)))
   < 0)%R.
Proof.
  pose proof (layout_face_features 6 (fun _ => 0%R) 0) as (_ & _ & Hw & _ & Hr & _).
  split.
  - apply Hw. lia.
  - apply Hr. lia.
Defined.

Section BowFacts.

Import THREE Layout.
Local Open Scope R_scope.

(** The bow branch, with the four draws named. *)
Lemma getHelloKittyData_bow (index : Z) (rnd : nat -> R) (n : nat) :
  (9 <= index <= 35)%Z ->
  fst (getHelloKittyData index rnd n) =
  {| type := BOW;
     pos := bowPlace (bowLocal (rnd (S n)) (rnd (S (S n))) (rnd (S (S (S n)))));
     color := colors.hotPink;
     scale := 0.8 + rnd n * 0.4;
     rotation := Euler.zero |}.
Proof.
  intros H. unfold getHelloKittyData.
  destruct (Z.eqb_spec index 0) as [?|_]; [lia|].
  destruct (Z.eqb_spec index 1) as [?|_]; [lia|].
  destruct (Z.eqb_spec index 2) as [?|_]; [lia|].
  cbn [orb].
  destruct (Z.leb_spec 3 index); [|lia].
  destruct (Z.leb_spec index 8); [lia|].
  destruct (Z.leb_spec 9 index); [|lia].
  destruct (Z.leb_spec index 35); [|lia].
  reflexivity.
Qed.

Lemma sphere_point (phi theta : R) :
  (sin phi * cos theta) * (sin phi * cos theta)
  + (sin phi * sin theta) * (sin phi * sin theta)
  + cos phi * cos phi = 1.
Proof.
  pose proof (sin2_cos2_mult phi) as H1.
  pose proof (sin2_cos2_mult theta) as H2.
  replace ((sin phi * cos theta) * (sin phi * cos theta)
           + (sin phi * sin theta) * (sin phi * sin theta) + cos phi * cos phi)
    with (sin phi * sin phi * (sin theta * sin theta + cos theta * cos theta)
          + cos phi * cos phi) by ring.
  rewrite H2. lra.
Qed.

(** Before rotation and offset the point lies on the ellipsoid of its
    lobe. *)
Lemma bowLocal_in_lobe (part u v : R) :
  inEllipsoid lobeCenter 0.5 0.5 0.25 (bowLocal part u v) \/
  inEllipsoid lobeLeft 0.8 0.96 0.4 (bowLocal part u v) \/
  inEllipsoid lobeRight 0.8 0.96 0.4 (bowLocal part u v).
Proof.
  unfold bowLocal, bowLobe.
  pose proof (sphere_point (acos (2 * v - 1)) (2 * PI * u)) as H.
  set (phi := acos (2 * v - 1)) in *. set (theta := 2 * PI * u) in *.
  destruct (Rlt_dec part 0.2);
    [left | destruct (Rlt_dec part 0.6); [right; left | right; right]];
    cbv beta iota zeta;
    unfold inEllipsoid, lobeCenter, lobeLeft, lobeRight, Vector3.add;
    cbn [Vector3.x Vector3.y Vector3.z];
    apply Req_le; (etransitivity; [|exact H]); lra.
Qed.

(** ... and within the ball about the lobe centre that encloses that
    ellipsoid. *)
Lemma bowLocal_in_ball (part u v : R) :
  inBall lobeCenter 0.5 (bowLocal part u v) \/
  inBall lobeLeft 0.96 (bowLocal part u v) \/
  inBall lobeRight 0.96 (bowLocal part u v).
Proof.
  unfold bowLocal, bowLobe.
  pose proof (sphere_point (acos (2 * v - 1)) (2 * PI * u)) as H.
  set (phi := acos (2 * v - 1)) in *. set (theta := 2 * PI * u) in *.
  assert (Ha : 0 <= (sin phi * cos theta) * (sin phi * cos theta)) by nra.
  assert (Hb : 0 <= (sin phi * sin theta) * (sin phi * sin theta)) by nra.
  assert (Hc : 0 <= cos phi * cos phi) by nra.
  destruct (Rlt_dec part 0.2);
    [left | destruct (Rlt_dec part 0.6); [right; left | right; right]];
    cbv beta iota zeta;
    unfold inBall, lobeCenter, lobeLeft, lobeRight, Vector3.add,
           Vector3.distanceToSquared;
    cbn [Vector3.x Vector3.y Vector3.z]; lra.
Qed.

Lemma bowPlace_inBall (c q : Vector3.t) (r : R) :
  inBall c r q -> inBall (bowPlace c) r (bowPlace q).
Proof.
  unfold inBall, bowPlace, bowAxis. now rewrite rotate_translate_distance.
Qed.

End BowFacts.

Section BowCounterexample.

Import THREE Layout.
Local Open Scope R_scope.

Lemma topOfLeftLobe_range (n : nat) : 0 <= topOfLeftLobe n < 1.
Proof.
  destruct n as [|[|[|n]]]; simpl; lra.
Qed.

Lemma bowLocal_topOfLeftLobe :
  bowLocal 0.3 0.25 0.5 = Vector3.mk (-1.2) 0.96 0.
Proof.
  unfold bowLocal, bowLobe.
  destruct (Rlt_dec 0.3 0.2) as [H|_]; [lra|].
  destruct (Rlt_dec 0.3 0.6) as [_|H]; [|lra].
  replace (2 * PI * 0.25) with (PI / 2) by lra.
  replace (2 * 0.5 - 1) with 0 by lra.
  rewrite acos_0, sin_PI2, cos_PI2.
  unfold Vector3.add. cbn [Vector3.x Vector3.y Vector3.z].
  f_equal; lra.
Qed.

Lemma half_radian :
  0 < sin 0.5 <= 1 /\ 0 < cos 0.5 <= 1.
Proof.
  pose proof PI2_1. pose proof (SIN_bound 0.5). pose proof (COS_bound 0.5).
  split; split; try tauto.
  - apply sin_gt_0; lra.
  - apply cos_gt_0; lra.
Qed.

End BowCounterexample.

(** C8, as stated, fails.  With the draws 0, 0.3, 0.25, 0.5 index 9 yields
    the top of the left lobe, stretched by 1.2 along y: the point is 0.96
    from the lobe centre.  It is outside the three spheres of radius 0.5,
    0.8, 0.8, whether their centres are only translated by the bow offset or
    rotated and translated with the point. *)
Lemma bow_point_outside_lobe_spheres :
  let k := Rand.run (Layout.getHelloKittyData 9) Layout.topOfLeftLobe in
  (forall n, (0 <= Layout.topOfLeftLobe n < 1)%R) /\
  Layout.type k = Layout.BOW /\
  ~ Layout.lobeSpheres (fun c => THREE.Vector3.add c Layout.bowOffset) (Layout.pos k) /\
  ~ Layout.lobeSpheres Layout.bowPlace (Layout.pos k).
Proof.
  intros k. subst k. unfold Rand.run.
  rewrite getHelloKittyData_bow by lia.
  cbn [Layout.type Layout.pos Layout.topOfLeftLobe].
  rewrite bowLocal_topOfLeftLobe.
  split; [exact topOfLeftLobe_range|]. split; [reflexivity|].
  destruct half_radian as [[Hs0 Hs1] [Hc0 Hc1]].
  pose proof (sin2_cos2_mult 0.5) as Hsc.
  split.
  - unfold Layout.lobeSpheres, Layout.inBall, Layout.bowPlace, Layout.bowAxis,
           Layout.bowAngle.
    rewrite applyAxisAngle_z.
    replace (-0.5)%R with (Ropp 0.5) by lra.
    rewrite sin_neg, cos_neg.
    unfold THREE.Vector3.distanceToSquared, THREE.Vector3.add, Layout.bowOffset,
           Layout.lobeCenter, Layout.lobeLeft, Layout.lobeRight.
    cbn [THREE.Vector3.x THREE.Vector3.y THREE.Vector3.z].
    set (S := sin 0.5) in *. set (C := cos 0.5) in *.
    intros [H | [H | H]]; nra.
  - unfold Layout.lobeSpheres, Layout.inBall, Layout.bowPlace, Layout.bowAxis.
    rewrite !rotate_translate_distance.
    unfold THREE.Vector3.distanceToSquared, Layout.lobeCenter, Layout.lobeLeft,
           Layout.lobeRight.
    cbn [THREE.Vector3.x THREE.Vector3.y THREE.Vector3.z].
    intros [H | [H | H]]; lra.
Qed.

(** C8 (amended): for every index in [9, 35] and every outcome of the draws
    the generator returns type BOW and the position [bowPlace q] of a point
    [q] that lies within one of three axis-aligned ellipsoids: semi-axes
    (0.5, 0.5, 0.25) about the origin, or (0.8, 0.96, 0.4) about
    (-1.2, 0, 0) or about (1.2, 0, 0); [bowPlace] rotates by -0.5 rad about
    the z axis and then adds the bow offset (3, 2.5, 2.5).  Hence the
    position is within 0.5, 0.96 or 0.96 of the correspondingly rotated and
    translated lobe centre. *)
Theorem bow_within_lobes (index : Z) (rnd : nat -> R) (n : nat) :
  (9 <= index <= 35)%Z ->
  let k := fst (Layout.getHelloKittyData index rnd n) in
  Layout.type k = Layout.BOW /\
  (exists q : THREE.Vector3.t,
     Layout.pos k = Layout.bowPlace q /\
     (Layout.inEllipsoid Layout.lobeCenter 0.5 0.5 0.25 q \/
      Layout.inEllipsoid Layout.lobeLeft 0.8 0.96 0.4 q \/
      Layout.inEllipsoid Layout.lobeRight 0.8 0.96 0.4 q)) /\
  (Layout.inBall (Layout.bowPlace Layout.lobeCenter) 0.5 (Layout.pos k) \/
   Layout.inBall (Layout.bowPlace Layout.lobeLeft) 0.96 (Layout.pos k) \/
   Layout.inBall (Layout.bowPlace Layout.lobeRight) 0.96 (Layout.pos k)).
Proof.
  intros H k. subst k. rewrite getHelloKittyData_bow by assumption.
  cbn [Layout.type Layout.pos].
  split; [reflexivity|]. split.
  - eexists. split; [reflexivity|]. apply bowLocal_in_lobe.
  - destruct (bowLocal_in_ball (rnd (S n)) (rnd (S (S n))) (rnd (S (S (S n)))))
      as [Hb | [Hb | Hb]]; [left | right; left | right; right];
      now apply bowPlace_inBall.
Qed.

Lemma bow_within_lobes_witness :
  Layout.type (Rand.run (Layout.getHelloKittyData 9) Layout.topOfLeftLobe) = Layout.BOW.
Proof.
  exact (proj1 (bow_within_lobes 9 Layout.topOfLeftLobe 0
                  (conj (fun H : (9 ?= 9)%Z = Gt => ltac:(discriminate H))
                        (fun H : (9 ?= 35)%Z = Gt => ltac:(discriminate H))))).
Defined.

(** * Theorems: gallery visibility *)

Section VisibilityFacts.

Import Gallery.

Lemma ElementType_eqb_eq (a b : Layout.ElementType) :
  Layout.ElementType_eqb a b = true <-> a = b.
Proof. destruct a, b; simpl; split; congruence. Qed.

Lemma includes_elem_of (l : list nat) (i : nat) :
  includes l i = true <-> i ∈ l.
Proof.
  unfold includes. rewrite existsb_exists, list_elem_of_In.
  split.
  - intros (j & Hj & E). apply Nat.eqb_eq in E. now subst.
  - intros H. exists i. split; [assumption | apply Nat.eqb_refl].
Qed.

(** The three ways through the loop body. *)
Lemma uniqueStep_skip data acc i p :
  data !! i = Some p -> type p <> Layout.PHOTO -> uniqueStep data acc i = acc.
Proof.
  intros Hp Ht. unfold uniqueStep. rewrite Hp.
  destruct (Layout.ElementType_eqb (type p) Layout.PHOTO) eqn:E; [|reflexivity].
  apply ElementType_eqb_eq in E. contradiction.
Qed.

Lemma uniqueStep_seen data acc i p :
  data !! i = Some p -> type p = Layout.PHOTO -> textureIndex p ∈ acc.1 ->
  uniqueStep data acc i = acc.
Proof.
  intros Hp Ht Hs. unfold uniqueStep. rewrite Hp, Ht. simpl.
  destruct (decide (textureIndex p ∈ acc.1)); [reflexivity | contradiction].
Qed.

Lemma uniqueStep_new data acc i p :
  data !! i = Some p -> type p = Layout.PHOTO -> textureIndex p ∉ acc.1 ->
  uniqueStep data acc i = ({[textureIndex p]} ∪ acc.1, acc.2 ++ [i]).
Proof.
  intros Hp Ht Hs. unfold uniqueStep. rewrite Hp, Ht. simpl.
  destruct (decide (textureIndex p ∈ acc.1)); [contradiction | reflexivity].
Qed.

Lemma uniqueAfter_S data n :
  uniqueAfter data (S n) = uniqueStep data (uniqueAfter data n) n.
Proof.
  unfold uniqueAfter. rewrite seq_S, fold_left_app. reflexivity.
Qed.

(** The loop invariant: [seenTextures] holds the textures of the photos
    met so far, every one of them is represented in [indices] by exactly
    one photo, and [indices] holds nothing else. *)
Lemma uniqueAfter_inv (data : list Particle) (n : nat) :
  n <= length data ->
  (forall t, t ∈ (uniqueAfter data n).1 <->
             exists j p, j < n /\ data !! j = Some p /\
                         type p = Layout.PHOTO /\ textureIndex p = t) /\
  (forall t, t ∈ (uniqueAfter data n).1 ->
             exists i p, i ∈ (uniqueAfter data n).2 /\ data !! i = Some p /\
                         textureIndex p = t) /\
  (forall i, i ∈ (uniqueAfter data n).2 ->
             i < n /\ exists p, data !! i = Some p /\ type p = Layout.PHOTO) /\
  (forall i j p q, i ∈ (uniqueAfter data n).2 -> j ∈ (uniqueAfter data n).2 ->
                   data !! i = Some p -> data !! j = Some q ->
                   textureIndex p = textureIndex q -> i = j).
Proof.
  induction n as [|n IH]; intros Hn.
  - unfold uniqueAfter; simpl. repeat split.
    + intros H. set_solver.
    + intros (j & p & Hj & _). lia.
    + intros t H. set_solver.
    + apply elem_of_nil in H. contradiction.
    + apply elem_of_nil in H. contradiction.
    + intros i j p q H. apply elem_of_nil in H. contradiction.
  - destruct IH as (IH1 & IH2 & IH3 & IH4); [lia|].
    rewrite uniqueAfter_S.
    destruct (lookup_lt_is_Some_2 data n) as [p Hp]; [lia|].
    assert (type p = Layout.PHOTO \/ type p <> Layout.PHOTO) as [Ht|Ht]
      by (destruct (type p); (left; reflexivity) || (right; discriminate)).
    2:{ rewrite (uniqueStep_skip _ _ _ _ Hp Ht).
        refine (conj _ (conj IH2 (conj _ IH4))).
        - intros t. rewrite IH1. split.
          + intros (j & q & Hj & H). exists j, q. split; [lia | exact H].
          + intros (j & q & Hj & Hq & Hqt & E).
            destruct (decide (j = n)) as [->|Hne]; [congruence|].
            exists j, q. repeat split; try assumption. lia.
        - intros i Hi. destruct (IH3 i Hi) as [Hlt H]. split; [lia | exact H]. }
    destruct (decide (textureIndex p ∈ (uniqueAfter data n).1)) as [Hs|Hs].
    + rewrite (uniqueStep_seen _ _ _ _ Hp Ht Hs).
      refine (conj _ (conj IH2 (conj _ IH4))).
      * intros t. split.
        -- intros H. apply IH1 in H as (j & q & Hj & H).
           exists j, q. split; [lia | exact H].
        -- intros (j & q & Hj & Hq & Hqt & E).
           destruct (decide (j = n)) as [->|Hne].
           ++ assert (q = p) by congruence. subst q. now rewrite <- E.
           ++ apply IH1. exists j, q. repeat split; try assumption. lia.
      * intros i Hi. destruct (IH3 i Hi) as [Hlt H]. split; [lia | exact H].
    + rewrite (uniqueStep_new _ _ _ _ Hp Ht Hs). cbn [fst snd].
      refine (conj _ (conj _ (conj _ _))).
      * intros t. rewrite elem_of_union, elem_of_singleton, IH1. split.
        -- intros [-> | (j & q & Hj & H)].
           ++ exists n, p. repeat split; try assumption. lia.
           ++ exists j, q. split; [lia | exact H].
        -- intros (j & q & Hj & Hq & Hqt & E).
           destruct (decide (j = n)) as [->|Hne].
           ++ left. congruence.
           ++ right. exists j, q. repeat split; try assumption. lia.
      * intros t. rewrite elem_of_union, elem_of_singleton.
        intros [-> | H].
        -- exists n, p. rewrite elem_of_app, list_elem_of_singleton. auto.
        -- destruct (IH2 t H) as (i & q & Hi & H').
           exists i, q. rewrite elem_of_app. auto.
      * intros i. rewrite elem_of_app, list_elem_of_singleton.
        intros [Hi | ->].
        -- destruct (IH3 i Hi) as [Hlt H]. split; [lia | exact H].
        -- split; [lia|]. exists p. auto.
      * assert (Hfresh : forall i q, i ∈ (uniqueAfter data n).2 ->
                                      data !! i = Some q ->
                                      textureIndex q <> textureIndex p).
        { intros i q Hi Hq E. apply Hs. apply IH1.
          destruct (IH3 i Hi) as [Hlt (q' & Hq' & Hqt)].
          assert (q' = q) by congruence. subst q'.
          exists i, q. auto. }
        intros i j q1 q2. rewrite !elem_of_app, !list_elem_of_singleton.
        intros [Hi | ->] [Hj | ->] H1 H2 E.
        -- exact (IH4 i j q1 q2 Hi Hj H1 H2 E).
        -- assert (q2 = p) by congruence. subst q2.
           exfalso. exact (Hfresh i q1 Hi H1 E).
        -- assert (q1 = p) by congruence. subst q1.
           exfalso. exact (Hfresh j q2 Hj H2 (eq_sym E)).
        -- reflexivity.
Qed.

Lemma uniquePhotoIndices_after (data : list Particle) :
  uniquePhotoIndices data = (uniqueAfter data (length data)).2.
Proof. reflexivity. Qed.

(** What the frame update writes into [visible], child by child. *)
Lemma frameChildren_visible state gm cpi uniq delta :
  forall (objs : list Particle) (children : list Group) (i0 k : nat) (g : Group),
    length children = length objs ->
    (frameChildren state gm cpi uniq delta i0 objs children).2 !! k = Some g ->
    visible g = if gm then includes uniq (i0 + k) else true.
Proof.
  induction objs as [|p objs IH]; intros [|c children] i0 k g Hlen; simpl in Hlen;
    try discriminate.
  cbn [frameChildren].
  destruct (frameChild state gm cpi uniq delta i0 p c) as [p' g'] eqn:Ec.
  destruct (frameChildren state gm cpi uniq delta (S i0) objs children)
    as [ps gs] eqn:Er.
  cbn [snd]. destruct k as [|k]; simpl.
  - intros [= <-]. apply (f_equal snd) in Ec. cbn [snd] in Ec. subst g'.
    unfold frameChild. cbn [snd visible]. rewrite Nat.add_0_r.
    destruct gm; [|reflexivity]. simpl.
    destruct (includes uniq i0); reflexivity.
  - intros Hk.
    replace (i0 + S k) with (S i0 + k) by lia.
    apply (IH children (S i0) k g); [lia|]. rewrite Er. exact Hk.
Qed.

Lemma frameChildren_length state gm cpi uniq delta :
  forall (objs : list Particle) (children : list Group) (i0 : nat),
    length children = length objs ->
    length (frameChildren state gm cpi uniq delta i0 objs children).2
    = length objs.
Proof.
  induction objs as [|p objs IH]; intros [|c children] i0 Hlen; simpl in Hlen;
    try discriminate; [reflexivity|].
  cbn [frameChildren].
  destruct (frameChild state gm cpi uniq delta i0 p c) as [p' g'].
  specialize (IH children (S i0) ltac:(lia)).
  destruct (frameChildren state gm cpi uniq delta (S i0) objs children)
    as [ps gs].
  simpl in *. now rewrite IH.
Qed.

End VisibilityFacts.

(** C6: after a frame update in gallery mode a particle is visible exactly
    when its index is one of [uniquePhotoIndices]; these are particles of
    type PHOTO, no two of them share a texture index, and every texture
    index carried by a PHOTO particle is represented, so every other
    particle is hidden.  Outside gallery mode every particle is visible. *)
Theorem gallery_visibility (state : SceneState) (galleryMode : bool)
    (currentPhotoIndex : Z) (delta : R)
    (objs : list Gallery.Particle) (children : list Gallery.Group) :
  length children = length objs ->
  exists gs : list Gallery.Group,
    (Gallery.useFrame state galleryMode currentPhotoIndex delta objs (Some children)).2
    = Some gs /\
    length gs = length objs /\
    (galleryMode = false ->
     forall k g, gs !! k = Some g -> Gallery.visible g = true) /\
    (galleryMode = true ->
     forall k g, gs !! k = Some g ->
       (Gallery.visible g = true <-> k ∈ Gallery.uniquePhotoIndices objs) /\
       (Gallery.visible g = false <-> k ∉ Gallery.uniquePhotoIndices objs)) /\
    (forall i, i ∈ Gallery.uniquePhotoIndices objs ->
       exists p, objs !! i = Some p /\ Gallery.type p = Layout.PHOTO) /\
    (forall i j p q,
       i ∈ Gallery.uniquePhotoIndices objs -> j ∈ Gallery.uniquePhotoIndices objs ->
       objs !! i = Some p -> objs !! j = Some q ->
       Gallery.textureIndex p = Gallery.textureIndex q -> i = j) /\
    (forall j q, objs !! j = Some q -> Gallery.type q = Layout.PHOTO ->
       exists i p, i ∈ Gallery.uniquePhotoIndices objs /\ objs !! i = Some p /\
                   Gallery.textureIndex p = Gallery.textureIndex q).
Proof.
  intros Hlen. unfold Gallery.useFrame.
  pose proof (frameChildren_visible state galleryMode currentPhotoIndex
                (Gallery.uniquePhotoIndices objs) delta objs children 0) as Hv.
  pose proof (frameChildren_length state galleryMode currentPhotoIndex
                (Gallery.uniquePhotoIndices objs) delta objs children 0 Hlen) as Hl.
  destruct (Gallery.frameChildren state galleryMode currentPhotoIndex
              (Gallery.uniquePhotoIndices objs) delta 0 objs children) as [ps gs].
  cbn [snd] in *. exists gs.
  destruct (uniqueAfter_inv objs (length objs) (Nat.le_refl _))
    as (I1 & I2 & I3 & I4).
  rewrite <- uniquePhotoIndices_after in I2, I3, I4.
  refine (conj eq_refl (conj Hl (conj _ (conj _ (conj _ (conj I4 _)))))).
  - intros -> k g Hk. exact (Hv k g Hlen Hk).
  - intros -> k g Hk. rewrite (Hv k g Hlen Hk). cbn [Nat.add].
    rewrite <- includes_elem_of.
    destruct (Gallery.includes (Gallery.uniquePhotoIndices objs) k);
      split; split; congruence.
  - intros i Hi. exact (proj2 (I3 i Hi)).
  - intros j q Hq Ht. apply I2. apply I1.
    exists j, q. repeat split; try assumption.
    apply (lookup_lt_Some _ _ _ Hq).
Qed.

Lemma gallery_visibility_witness :
  exists gs : list Gallery.Group,
    (Gallery.useFrame FORMED true 0 0 Gallery.sampleData
       (Some Gallery.sampleChildren)).2 = Some gs /\
    length gs = 4%nat.
Proof.
  destruct (gallery_visibility FORMED true 0 0 Gallery.sampleData
              Gallery.sampleChildren eq_refl) as (gs & H1 & H2 & _).
  exists gs. split; assumption.
Defined.

(** * Further properties: the application shell *)

Section SessionFacts.

Import App.
Local Open Scope Z_scope.

Lemma nextPhoto_range (i : Z) :
  0 <= i < totalGalleryPhotos -> 0 <= nextPhoto i < totalGalleryPhotos.
Proof.
  unfold nextPhoto, totalGalleryPhotos, TOTAL_NUMBERED_PHOTOS. intros H.
  rewrite Z.rem_mod_nonneg by lia. apply Z.mod_pos_bound. lia.
Qed.

Lemma prevPhoto_range (i : Z) :
  0 <= i < totalGalleryPhotos -> 0 <= prevPhoto i < totalGalleryPhotos.
Proof.
  unfold prevPhoto, totalGalleryPhotos, TOTAL_NUMBERED_PHOTOS. intros H.
  rewrite Z.rem_mod_nonneg by lia. apply Z.mod_pos_bound. lia.
Qed.

Lemma nextPhoto_cases (i : Z) :
  0 <= i < totalGalleryPhotos ->
  nextPhoto i = if i =? 51 then 0 else i + 1.
Proof.
  unfold nextPhoto, totalGalleryPhotos, TOTAL_NUMBERED_PHOTOS. intros H.
  rewrite Z.rem_mod_nonneg by lia.
  destruct (Z.eqb_spec i 51) as [->|Hne]; [reflexivity|].
  apply Z.mod_small. lia.
Qed.

Lemma prevPhoto_cases (i : Z) :
  0 <= i < totalGalleryPhotos ->
  prevPhoto i = if i =? 0 then 51 else i - 1.
Proof.
  unfold prevPhoto, totalGalleryPhotos, TOTAL_NUMBERED_PHOTOS. intros H.
  rewrite Z.rem_mod_nonneg by lia.
  destruct (Z.eqb_spec i 0) as [->|Hne]; [reflexivity|].
  replace (i - 1 + 52) with (i - 1 + 1 * 52) by lia.
  rewrite Z.mod_add by lia. apply Z.mod_small. lia.
Qed.

(** Pressing next [n] times from an index in range adds [n] modulo 52. *)
Lemma nextN_mod (n : nat) :
  forall i, 0 <= i < totalGalleryPhotos ->
            Loop.nextN n i = (i + Z.of_nat n) mod 52.
Proof.
  induction n as [|n IH]; intros i Hi.
  - simpl. rewrite Z.add_0_r. symmetry. apply Z.mod_small.
    unfold totalGalleryPhotos, TOTAL_NUMBERED_PHOTOS in Hi. lia.
  - cbn [Loop.nextN]. rewrite IH by now apply nextPhoto_range.
    unfold nextPhoto, totalGalleryPhotos, TOTAL_NUMBERED_PHOTOS in *.
    rewrite Z.rem_mod_nonneg by lia.
    rewrite Zplus_mod_idemp_l. f_equal. lia.
Qed.

Lemma checkAllPhotos_bounds_from (exists_ : Z -> bool) (l : list Z) :
  forall acc,
    acc <= fold_left (fun loadedCount i =>
                        if exists_ i then loadedCount + 1 else loadedCount) l acc
        <= acc + Z.of_nat (length l).
Proof.
  induction l as [|i l IH]; intros acc; simpl; [lia|].
  destruct (exists_ i).
  - specialize (IH (acc + 1)). lia.
  - specialize (IH acc). lia.
Qed.

Lemma checkAllPhotos_range (exists_ : Z -> bool) :
  0 <= Mount.checkAllPhotos exists_ <= TOTAL_NUMBERED_PHOTOS.
Proof.
  unfold Mount.checkAllPhotos.
  pose proof (checkAllPhotos_bounds_from exists_
                (map Z.of_nat (seq 1 (Z.to_nat TOTAL_NUMBERED_PHOTOS))) 0) as H.
  rewrite length_map, length_seq in H.
  rewrite Z2Nat.id in H by (unfold TOTAL_NUMBERED_PHOTOS; lia). lia.
Qed.

(** The upload handler never lowers the count and keeps it in range. *)
Lemma handlePhotoUpload_photoCount (files : option (list string)) (s : State) :
  0 <= photoCount s <= TOTAL_NUMBERED_PHOTOS ->
  photoCount s <= photoCount (fst (handlePhotoUpload files s)) <= TOTAL_NUMBERED_PHOTOS.
Proof.
  intros H. unfold handlePhotoUpload, TOTAL_NUMBERED_PHOTOS in *.
  destruct files as [fs|]; simpl; [|lia].
  destruct (Z.eqb_spec (Z.of_nat (length fs)) 0); simpl; [lia|].
  destruct (Z.leb_spec (52 - photoCount s) 0); simpl; lia.
Qed.

Lemma handlePhotoUpload_frame (files : option (list string)) (s : State) :
  fst (handlePhotoUpload files s)
  = setPhotoCount (fun _ => photoCount (fst (handlePhotoUpload files s))) s.
Proof.
  unfold handlePhotoUpload.
  destruct files as [fs|]; simpl; [|now destruct s].
  destruct (Z.of_nat (length fs) =? 0); simpl; [now destruct s|].
  destruct (TOTAL_NUMBERED_PHOTOS - photoCount s <=? 0); simpl;
    [now destruct s | reflexivity].
Qed.

End SessionFacts.

(** X1: on indices in [0, 52) the previous-photo and next-photo operations
    are inverse to each other, and 52 presses of next return to the index
    one started from. *)
Theorem gallery_navigation_round_trip (i : Z) :
  (0 <= i < App.totalGalleryPhotos)%Z ->
  App.prevPhoto (App.nextPhoto i) = i /\
  App.nextPhoto (App.prevPhoto i) = i /\
  Loop.nextN 52 i = i.
Proof.
  intros Hi.
  pose proof (nextPhoto_range i Hi) as Hn.
  pose proof (prevPhoto_range i Hi) as Hp.
  unfold App.totalGalleryPhotos, TOTAL_NUMBERED_PHOTOS in *.
  refine (conj _ (conj _ _)).
  - rewrite prevPhoto_cases by assumption.
    rewrite nextPhoto_cases in * by assumption.
    destruct (Z.eqb_spec i 51); simpl.
    + lia.
    + destruct (Z.eqb_spec (i + 1) 0); lia.
  - rewrite nextPhoto_cases by assumption.
    rewrite prevPhoto_cases in * by assumption.
    destruct (Z.eqb_spec i 0); simpl.
    + lia.
    + destruct (Z.eqb_spec (i - 1) 51); lia.
  - rewrite nextN_mod by assumption.
    change (Z.of_nat 52) with (1 * 52)%Z.
    rewrite Z.mod_add by lia. apply Z.mod_small. lia.
Qed.

Lemma gallery_navigation_round_trip_witness :
  App.prevPhoto (App.nextPhoto 51) = 51%Z.
Proof.
  exact (proj1 (gallery_navigation_round_trip 51
                  (conj (fun H : (0 ?= 51)%Z = Gt => ltac:(discriminate H))
                        (eq_refl : (51 ?= 52)%Z = Lt)))).
Defined.

(** X2: two consecutive clicks on the scene toggle, the birthday button or
    the debug button, with no callback in between, restore every state cell
    except possibly [aiStatus].  The scene toggle restores the whole state.
    The birthday button unmounts and remounts the gesture controller unless
    gallery mode keeps it unmounted, and the debug button re-runs the
    controller's effect while it is mounted: in those cases [aiStatus] ends
    as "DOWNLOADING AI...", otherwise the whole state is restored. *)
Theorem double_click_restores_all_but_status (s : App.State) :
  App.click App.SceneToggleButton (App.click App.SceneToggleButton s) = s /\
  App.click App.BirthdayButton (App.click App.BirthdayButton s)
  = (if App.galleryMode s then s else App.setAiStatus "DOWNLOADING AI..." s) /\
  App.click App.DebugButton (App.click App.DebugButton s)
  = (if App.gestureMounted s then App.setAiStatus "DOWNLOADING AI..." s else s) /\
  (forall c : App.Control,
     c = App.SceneToggleButton \/ c = App.BirthdayButton \/ c = App.DebugButton ->
     App.setAiStatus (App.aiStatus s) (App.click c (App.click c s)) = s).
Proof.
  destruct s as [sc rs b a d p g i].
  refine (conj _ (conj _ (conj _ _))).
  - destruct sc, b, d, g; reflexivity.
  - destruct b, d, g; reflexivity.
  - destruct b, d, g; reflexivity.
  - intros c [-> | [-> | ->]]; destruct sc, b, d, g; reflexivity.
Qed.

Lemma double_click_restores_all_but_status_witness :
  let s2 := App.click App.BirthdayButton
              (App.click App.BirthdayButton App.initial) in
  App.aiStatus s2 = "DOWNLOADING AI..."%string /\
  App.setAiStatus (App.aiStatus App.initial) s2 = App.initial.
Proof.
  intros s2. subst s2.
  destruct (double_click_restores_all_but_status App.initial)
    as (_ & Hb & _ & Hall).
  split.
  - exact (f_equal App.aiStatus Hb).
  - exact (Hall App.BirthdayButton (or_intror (or_introl eq_refl))).
Defined.

(** X3: in every state the application reaches, [photoCount] is in
    [0, 52], [currentPhotoIndex] is in [0, 52), and gallery mode is on only
    while the scene is FORMED. *)
Theorem reachable_state_invariant (s : App.State) :
  Mount.reachable s ->
  (0 <= App.photoCount s <= TOTAL_NUMBERED_PHOTOS)%Z /\
  (0 <= App.currentPhotoIndex s < App.totalGalleryPhotos)%Z /\
  (App.galleryMode s = true -> App.sceneState s = FORMED).
Proof.
  induction 1 as [|e s He Hs (IHp & IHi & IHg)].
  - cbv. repeat split; congruence.
  - destruct e as [c | cb | n].
    + unfold App.step, App.interact.
      destruct (App.rendered c s) eqn:Hr; [|auto].
      destruct c; simpl in *.
      * apply negb_true_iff in Hr. rewrite Hr. repeat split; try tauto; congruence.
      * unfold App.handleGalleryToggle.
        destruct (App.galleryMode s) eqn:Hg; simpl.
        -- repeat split; try tauto; congruence.
        -- destruct (App.sceneState s) eqn:Hsc; simpl.
           ++ repeat split; try tauto; congruence.
           ++ repeat split; try tauto; try discriminate; reflexivity.
      * auto.
      * pose proof (handlePhotoUpload_photoCount files s IHp) as Hp.
        rewrite (handlePhotoUpload_frame files s). simpl.
        repeat split; try tauto; lia.
      * auto.
      * repeat split; try tauto; now apply prevPhoto_range.
      * repeat split; try tauto; now apply nextPhoto_range.
    + unfold App.step, App.gestureMounted.
      destruct (App.galleryMode s) eqn:Hg;
        [rewrite andb_false_r; rewrite Hg; auto|].
      destruct (negb (App.birthdayMode s)); simpl; [|rewrite Hg; auto].
      destruct cb; simpl; rewrite Hg; repeat split; try tauto; congruence.
    + destruct He as [ex ->]. simpl.
      pose proof (checkAllPhotos_range ex). auto.
Qed.

Lemma reachable_state_invariant_witness :
  (0 <= App.currentPhotoIndex
          (App.step (App.Activate App.PrevArrow)
             (App.step (App.Activate App.GalleryButton)
                (App.step (App.Activate App.SceneToggleButton) App.initial)))
      < App.totalGalleryPhotos)%Z.
Proof.
  refine (proj1 (proj2 (reachable_state_invariant _ _))).
  repeat (apply Mount.reach_step; [exact I|]). apply Mount.reach_initial.
Defined.

(** X4: while gallery mode is on, no event changes [sceneState], and the
    only event that leaves gallery mode is the gallery button. *)
Theorem gallery_mode_is_closed (e : App.Event) (s : App.State) :
  App.galleryMode s = true ->
  App.sceneState (App.step e s) = App.sceneState s /\
  (App.galleryMode (App.step e s) = false -> e = App.Activate App.GalleryButton).
Proof.
  intros Hg. destruct e as [c | cb | n].
  - unfold App.step, App.interact.
    destruct c; simpl; rewrite ?Hg; simpl; try (split; [reflexivity | congruence]).
    + unfold App.handleGalleryToggle. rewrite Hg, orb_true_r. simpl. auto.
    + rewrite (handlePhotoUpload_frame files s). simpl.
      split; [reflexivity | congruence].
    + destruct (negb (App.birthdayMode s)); simpl; split; congruence.
  - unfold App.step, App.gestureMounted. rewrite Hg, andb_false_r.
    split; [reflexivity | congruence].
  - simpl. split; [reflexivity | congruence].
Qed.

Lemma gallery_mode_is_closed_witness :
  let s := App.step (App.Activate App.GalleryButton)
             (App.step (App.Activate App.SceneToggleButton) App.initial) in
  App.sceneState (App.step (App.FromGesture (Gesture.OnGesture CHAOS)) s) = FORMED.
Proof.
  intros s.
  exact (proj1 (gallery_mode_is_closed
                  (App.FromGesture (Gesture.OnGesture CHAOS)) s eq_refl)).
Defined.

(** X5: an accepted upload announces exactly the slots it fills: the first
    announced number is the old count plus one, the last is the new count,
    their span is the announced number of files, at least one and at most
    the number selected, and the file input is reset; a null or empty
    selection has no effect at all. *)
Theorem upload_announcement (files : option (list string)) (s : App.State) :
  (App.photoCount s < TOTAL_NUMBERED_PHOTOS)%Z ->
  let s' := fst (App.handlePhotoUpload files s) in
  let effects := snd (App.handlePhotoUpload files s) in
  match files with
  | None => s' = s /\ effects = []
  | Some [] => s' = s /\ effects = []
  | Some fs =>
    exists n,
      effects = [App.AlertReadyToUpload n (App.photoCount s + 1) (App.photoCount s');
                 App.ResetFileInput] /\
      (1 <= n <= Z.of_nat (length fs))%Z /\
      App.photoCount s' = (App.photoCount s + n)%Z /\
      (App.photoCount s' <= TOTAL_NUMBERED_PHOTOS)%Z
  end.
Proof.
  intros Hlt. unfold App.handlePhotoUpload, TOTAL_NUMBERED_PHOTOS in *.
  destruct files as [[|f fs]|]; simpl; [auto | | auto].
  destruct (Z.leb_spec (52 - App.photoCount s) 0) as [H|H]; [lia|]. simpl.
  eexists. split; [|split; [|split]].
  - f_equal. f_equal. lia.
  - lia.
  - lia.
  - lia.
Qed.

Lemma upload_announcement_witness :
  exists n,
    snd (App.handlePhotoUpload (Some ["a.jpg"; "b.jpg"; "c.jpg"]%string)
           (App.setPhotoCount (fun _ => 50%Z) App.initial))
    = [App.AlertReadyToUpload n 51 52; App.ResetFileInput].
Proof.
  destruct (upload_announcement (Some ["a.jpg"; "b.jpg"; "c.jpg"]%string)
              (App.setPhotoCount (fun _ => 50%Z) App.initial) eq_refl)
    as (n & H & _).
  exists n. exact H.
Defined.

(** * Further properties: the gesture loop *)

Section LoopFacts.

Import Gesture.
Local Open Scope Z_scope.

Lemma transitions_app (a b : list Callback) :
  transitions (a ++ b) = transitions a ++ transitions b.
Proof.
  induction a as [|[t|v|m] a IH]; simpl; congruence.
Qed.


(** A frame, seen through the sample at the head of [gestures]. *)
Lemma processFrame_hand (d : bool) (res : Results) (r : Refs) (c : Category)
    (rest : list Category) :
  gestures res = c :: rest ->
  fst (processFrame d res r) = fst (debounce d c r) /\
  transitions (snd (processFrame d res r)) = transitions (snd (debounce d c r)).
Proof.
  intros Hg. unfold processFrame. rewrite Hg.
  destruct (debounce d c r) as [r' cbs]. cbn [fst snd].
  split; [reflexivity|]. rewrite transitions_app.
  destruct (landmarks res); simpl; now rewrite app_nil_r.
Qed.

Lemma processFrame_no_hand (d : bool) (res : Results) (r : Refs) :
  gestures res = [] ->
  fst (processFrame d res r)
  = {| lastGesture := None; gestureCount := 0; currentState := currentState r |} /\
  transitions (snd (processFrame d res r)) = [].
Proof.
  intros Hg. unfold processFrame. rewrite Hg. cbn [fst snd].
  split; [reflexivity|]. destruct d; reflexivity.
Qed.

Lemma processFrame_step (d : bool) (res : Results) (r : Refs) :
  (transitions (snd (processFrame d res r)) = [] /\
   currentState (fst (processFrame d res r)) = currentState r) \/
  (exists t, transitions (snd (processFrame d res r)) = [t] /\
             currentState r <> Some t /\
             currentState (fst (processFrame d res r)) = Some t).
Proof.
  destruct (gestures res) as [|c rest] eqn:Hg.
  - destruct (processFrame_no_hand d res r Hg) as [-> ->]. left. auto.
  - destruct (processFrame_hand d res r c rest Hg) as [-> ->].
    apply debounce_step.
Qed.



Lemma frames_cons (d : bool) (res : Results) (rs : list Results) (r : Refs) :
  Loop.frames d (res :: rs) r =
  (fst (Loop.frames d rs (fst (processFrame d res r))),
   snd (processFrame d res r) ++ snd (Loop.frames d rs (fst (processFrame d res r)))).
Proof.
  cbn [Loop.frames]. destruct (processFrame d res r) as [r1 cbs].
  cbn [fst snd]. now destruct (Loop.frames d rs r1).
Qed.

End LoopFacts.



(** X7: over any sequence of frames, every emitted transition event differs
    from the state latched before it (so the events alternate between CHAOS
    and FORMED), and afterwards the latched state is the last event emitted,
    or the old latched state if there was none. *)
Theorem events_alternate (d : bool) (rs : list Gesture.Results) (r : Gesture.Refs) :
  Loop.alternates (Gesture.currentState r)
                  (Gesture.transitions (snd (Loop.frames d rs r))) /\
  Gesture.currentState (fst (Loop.frames d rs r))
  = match last (Gesture.transitions (snd (Loop.frames d rs r))) with
    | Some t => Some t
    | None => Gesture.currentState r
    end.
Proof.
  revert r. induction rs as [|res rs IH]; intros r.
  - split; [exact I | reflexivity].
  - rewrite frames_cons. cbn [fst snd]. rewrite transitions_app.
    destruct (IH (fst (Gesture.processFrame d res r))) as [IHa IHl].
    destruct (processFrame_step d res r) as [[He Hs] | (t & He & Hne & Hs)];
      rewrite He; rewrite Hs in IHa, IHl.
    + simpl. split; assumption.
    + cbn [app Loop.alternates]. split; [split; assumption|].
      rewrite IHl.
      destruct (Gesture.transitions (snd (Loop.frames d rs _))) as [|t' l];
        [reflexivity|].
      rewrite last_cons_cons.
      destruct (last (t' :: l)) eqn:El; [reflexivity|].
      apply last_None in El. discriminate.
Qed.

(** X8: while the gesture shown maps to the state already latched (or to no
    state at all), no transition event is emitted, however long it is held. *)
Theorem latched_gesture_is_silent (d : bool) (t : SceneState)
    (rs : list Gesture.Results) (r : Gesture.Refs) :
  Gesture.currentState r = Some t ->
  Forall (fun res => forall c rest,
            Gesture.gestures res = c :: rest ->
            Gesture.targetOf (Gesture.categoryName c) = Some t \/
            Gesture.targetOf (Gesture.categoryName c) = None) rs ->
  Gesture.transitions (snd (Loop.frames d rs r)) = [].
Proof.
  revert r. induction rs as [|res rs IH]; intros r Hcur Hall; [reflexivity|].
  inversion Hall as [|? ? Hres Hrest]; subst.
  rewrite frames_cons. cbn [fst snd]. rewrite transitions_app.
  assert (Hq : Gesture.transitions (snd (Gesture.processFrame d res r)) = [] /\
               Gesture.currentState (fst (Gesture.processFrame d res r)) = Some t).
  { destruct (Gesture.gestures res) as [|c rest] eqn:Hg.
    - destruct (processFrame_no_hand d res r Hg) as [-> ->]. auto.
    - destruct (processFrame_hand d res r c rest Hg) as [-> ->].
      destruct (debounce_step d c r) as [[He Hs] | (t' & He & Hne & Hs)];
        [rewrite He, Hs; auto|].
      exfalso.
      assert (Hin : In t' (Gesture.transitions (snd (Gesture.debounce d c r))))
        by (rewrite He; left; reflexivity).
      destruct (debounce_event d c r t' Hin) as (_ & _ & _ & _ & Ht & _).
      destruct (Hres c rest eq_refl) as [H | H]; congruence. }
  destruct Hq as [-> Hs]. simpl. now apply IH.
Qed.

Lemma latched_gesture_is_silent_witness :
  Gesture.transitions
    (snd (Loop.frames false
            (repeat (Gesture.mkResults [Gesture.mkCategory "Closed_Fist" 0.9] []) 8)
            {| Gesture.lastGesture := None; Gesture.gestureCount := 0;
               Gesture.currentState := Some FORMED |}))
  = [].
Proof.
  refine (latched_gesture_is_silent false FORMED
            (repeat (Gesture.mkResults [Gesture.mkCategory "Closed_Fist" 0.9] []) 8)
            {| Gesture.lastGesture := None; Gesture.gestureCount := 0;
               Gesture.currentState := Some FORMED |} eq_refl _).
  simpl repeat.
  repeat (constructor; [intros c rest [= <- <-]; left; reflexivity|]).
  constructor.
Defined.

Section SteeringFacts.

Import Gesture.

(** The dead zone of the hand position, in terms of the speed. *)
Lemma moveOf_cases (x : Q) :
  ((13 # 30 <= x <= 17 # 30)%Q -> moveOf x = 0%Q) /\
  ((x < 13 # 30)%Q -> moveOf x = ((0.5 - x) * 0.15)%Q /\ (0.01 < moveOf x)%Q) /\
  ((17 # 30 < x)%Q -> moveOf x = ((0.5 - x) * 0.15)%Q /\ (moveOf x < -0.01)%Q).
Proof.
  unfold moveOf.
  destruct (Qgtb (Qabs ((0.5 - x) * 0.15)) 0.01) eqn:E.
  - apply Qgtb_true in E. revert E.
    apply Qabs_case; intros H E; repeat split; intros;
      first [reflexivity | Lqa.lra | exfalso; Lqa.lra].
  - apply Qgtb_false in E. revert E.
    apply Qabs_case; intros H E; repeat split; intros;
      first [reflexivity | Lqa.lra | exfalso; Lqa.lra].
Qed.

Lemma moveOf_bound (x : Q) :
  (0 <= x <= 1)%Q -> (Qabs (moveOf x) <= 0.075)%Q.
Proof.
  intros Hx. unfold moveOf.
  destruct (Qgtb (Qabs ((0.5 - x) * 0.15)) 0.01).
  - apply Qabs_case; intros; Lqa.lra.
  - apply Qabs_case; intros; Lqa.lra.
Qed.

(** Delivering callbacks to a mounted controller keeps it mounted. *)
Lemma deliver_mounted (cbs : list Callback) :
  forall s, App.gestureMounted s = true ->
    App.gestureMounted
      (fold_left (fun st cb => App.step (App.FromGesture cb) st) cbs s) = true /\
    App.birthdayMode
      (fold_left (fun st cb => App.step (App.FromGesture cb) st) cbs s)
    = App.birthdayMode s /\
    App.galleryMode
      (fold_left (fun st cb => App.step (App.FromGesture cb) st) cbs s)
    = App.galleryMode s.
Proof.
  induction cbs as [|cb cbs IH]; intros s Hm; [auto|].
  cbn [fold_left App.step]. rewrite Hm.
  assert (Hc : App.gestureMounted (App.callback cb s) = true /\
               App.birthdayMode (App.callback cb s) = App.birthdayMode s /\
               App.galleryMode (App.callback cb s) = App.galleryMode s)
    by (destruct cb; simpl; auto).
  destruct Hc as (Hm' & Hb & Hg).
  destruct (IH (App.callback cb s) Hm') as (H1 & H2 & H3).
  split; [exact H1|]. split; [exact (eq_trans H2 Hb) | exact (eq_trans H3 Hg)].
Qed.

End SteeringFacts.

(** X9: a frame with a detected hand, delivered to the application while
    the gesture controller is mounted, leaves [rotationSpeed] at
    [moveOf x] for the hand position [x] and leaves the controller mounted;
    the [autoRotate] prop of the orbit controls is then on exactly when that
    speed is zero.  For a hand within 0.06 of the centre the speed is 0 and
    automatic rotation is on; for a hand at least 0.07 away from it the
    speed is [(0.5 - x) * 0.15] (positive left of the centre, negative right
    of it, beyond 0.01 in magnitude) and automatic rotation is off; for
    [x] in [0, 1] the speed is at most 0.075 in magnitude. *)
Theorem hand_steers_camera (d : bool) (res : Gesture.Results) (r : Gesture.Refs)
    (c : Gesture.Category) (hands : list Gesture.Category)
    (x : Q) (marks : list Q) (s : App.State) :
  Gesture.gestures res = c :: hands ->
  Gesture.landmarks res = x :: marks ->
  App.gestureMounted s = true ->
  let s' := fold_left (fun st cb => App.step (App.FromGesture cb) st)
                      (snd (Gesture.processFrame d res r)) s in
  let turning := Experience.autoRotate (App.birthdayMode s') (App.galleryMode s')
                                    (App.rotationSpeed s') in
  App.rotationSpeed s' = Gesture.moveOf x /\
  App.gestureMounted s' = true /\
  turning = Qeq_bool (Gesture.moveOf x) 0 /\
  ((0.44 <= x <= 0.56)%Q -> Gesture.moveOf x = 0%Q /\ turning = true) /\
  ((x <= 0.43)%Q ->
   Gesture.moveOf x = ((0.5 - x) * 0.15)%Q /\ (0.01 < Gesture.moveOf x)%Q /\
   turning = false) /\
  ((0.57 <= x)%Q ->
   Gesture.moveOf x = ((0.5 - x) * 0.15)%Q /\ (Gesture.moveOf x < -0.01)%Q /\
   turning = false) /\
  ((0 <= x <= 1)%Q -> (Qabs (Gesture.moveOf x) <= 0.075)%Q).
Proof.
  intros Hg Hl Hm s' turning.
  assert (Hr : App.rotationSpeed s' = Gesture.moveOf x /\
               App.gestureMounted s' = true).
  { subst s'. unfold Gesture.processFrame. rewrite Hg, Hl.
    destruct (Gesture.debounce d c r) as [r' cbs]. cbn [snd].
    rewrite fold_left_app.
    destruct (deliver_mounted cbs s Hm) as (Hm' & _).
    set (s1 := fold_left _ cbs s) in *.
    cbn [fold_left]. unfold App.step. rewrite Hm'.
    split; [reflexivity | exact Hm']. }
  destruct Hr as [Hr Hm'].
  destruct (moveOf_cases x) as (H1 & H2 & H3).
  assert (Ha : turning = Qeq_bool (Gesture.moveOf x) 0).
  { subst turning. unfold Experience.autoRotate. rewrite Hr.
    unfold App.gestureMounted in Hm'.
    apply andb_true_iff in Hm' as [Hbm Hgm].
    rewrite Hbm, Hgm, !andb_true_r. reflexivity. }
  refine (conj Hr (conj Hm' (conj Ha (conj _ (conj _ (conj _ (moveOf_bound x))))))).
  - intros Hx. assert (E : Gesture.moveOf x = 0%Q) by (apply H1; Lqa.lra).
    split; [exact E|]. rewrite Ha, E. reflexivity.
  - intros Hx. destruct H2 as [E Hlt]; [Lqa.lra|].
    refine (conj E (conj Hlt _)). rewrite Ha.
    apply not_true_is_false. intros Hz. apply Qeq_bool_eq in Hz. Lqa.lra.
  - intros Hx. destruct H3 as [E Hlt]; [Lqa.lra|].
    refine (conj E (conj Hlt _)). rewrite Ha.
    apply not_true_is_false. intros Hz. apply Qeq_bool_eq in Hz. Lqa.lra.
Qed.

Lemma hand_steers_camera_witness :
  let s' := fold_left (fun st cb => App.step (App.FromGesture cb) st)
              (snd (Gesture.processFrame false
                      (Gesture.mkResults [Gesture.mkCategory "Victory" 0.9] [0.1%Q])
                      Gesture.initialRefs))
              App.initial in
  App.rotationSpeed s' = Gesture.moveOf 0.1 /\
  Experience.autoRotate (App.birthdayMode s') (App.galleryMode s')
                        (App.rotationSpeed s') = false.
Proof.
  intros s'.
  destruct (hand_steers_camera false
              (Gesture.mkResults [Gesture.mkCategory "Victory" 0.9] [0.1%Q])
              Gesture.initialRefs (Gesture.mkCategory "Victory" 0.9) []
              0.1%Q [] App.initial eq_refl eq_refl eq_refl)
    as (Hr & _ & _ & _ & Hl & _).
  split; [exact Hr|].
  exact (proj2 (proj2 (Hl ltac:(discriminate)))).
Defined.

(** * Further properties: the layout generator *)

Section BodyFacts.

Import THREE Layout.
Local Open Scope R_scope.

(** The last branch of the generator, with its draws named: [r] and
    [typeR] come first, a colour draw follows for hearts and gifts, and the
    region's own draws start at [k]. *)
Lemma getHelloKittyData_body (index : Z) (rnd : nat -> R) (n : nat) :
  (index < 0 \/ 35 < index)%Z ->
  let r := rnd n in
  let ty := bodyType (rnd (S n)) in
  let tinted := ElementType_eqb ty HEART || ElementType_eqb ty GIFT in
  let k := if tinted then S (S (S n)) else S (S n) in
  let tint := if tinted
              then (if Rgt_dec (rnd (S (S n))) 0.5 then colors.white
                    else colors.lightPink)
              else colors.white in
  let theta := 2 * PI * rnd k in
  fst (getHelloKittyData index rnd n) =
  if Rlt_dec r 0.65 then
    let phi := acos (2 * rnd (S k) - 1) in
    let rBase := 3.5 + rnd (S (S k)) * 0.5 in
    {| type := ty;
       pos := Vector3.mk (rBase * sin phi * cos theta)
                         ((rBase * 0.75) * sin phi * sin theta)
                         ((rBase * 0.75) * cos phi);
       color := tint; scale := 1; rotation := Euler.zero |}
  else if Rlt_dec r 0.85 then
    let isLeft := if Rgt_dec (rnd k) 0.5 then true else false in
    let theta := 2 * PI * rnd (S k) in
    let phi := acos (2 * rnd (S (S k)) - 1) in
    {| type := ty;
       pos := Vector3.add
                (Vector3.applyAxisAngle
                   (Vector3.mk (1.2 * sin phi * cos theta)
                               (1.2 * sin phi * sin theta)
                               (1.2 * cos phi))
                   (Vector3.mk 0 0 1) (if isLeft then 0.5 else -0.5))
                (Vector3.mk (if isLeft then -3.5 else 3.5) 3 0);
       color := tint; scale := 1; rotation := Euler.zero |}
  else
    let h := -4 + rnd (S k) * 3 in
    let rho := 2.5 * (1 - (h + 4) / 4) + 1.5 in
    {| type := ty;
       pos := Vector3.mk (rho * cos theta) h (rho * sin theta);
       color := if negb (ElementType_eqb ty PHOTO)
                then (if Rgt_dec (rnd (S (S k))) 0.5 then colors.blue
                      else colors.pink)
                else tint;
       scale := 1; rotation := Euler.zero |}.
Proof.
  intros H. unfold getHelloKittyData.
  destruct (Z.eqb_spec index 0) as [?|_]; [lia|].
  destruct (Z.eqb_spec index 1) as [?|_]; [lia|].
  destruct (Z.eqb_spec index 2) as [?|_]; [lia|].
  cbn [orb].
  assert (((3 <=? index) && (index <=? 8))%Z = false) as ->
    by (apply andb_false_iff; destruct H; [left; apply Z.leb_gt | right; apply Z.leb_gt]; lia).
  assert (((9 <=? index) && (index <=? 35))%Z = false) as ->
    by (apply andb_false_iff; destruct H; [left; apply Z.leb_gt | right; apply Z.leb_gt]; lia).
  unfold Rand.bind, Rand.random, Rand.ret. cbv beta iota zeta.
  destruct (bodyType (rnd (S n))); cbn [ElementType_eqb orb negb];
    cbv beta iota zeta;
    destruct (Rlt_dec (rnd n) 0.65); try reflexivity;
    destruct (Rlt_dec (rnd n) 0.85); reflexivity.
Qed.

End BodyFacts.

Section FeatureFacts.

Import THREE Layout.
Local Open Scope R_scope.

Lemma bodyType_cases (typeR : R) :
  bodyType typeR = PHOTO \/ bodyType typeR = BALLOON \/
  bodyType typeR = HEART \/ bodyType typeR = GIFT.
Proof.
  unfold bodyType.
  destruct (Rlt_dec typeR 0.5); [auto|].
  destruct (Rlt_dec typeR 0.75); [auto|].
  destruct (Rlt_dec typeR 0.9); auto.
Qed.

Lemma getHelloKittyData_body_type (index : Z) (rnd : nat -> R) (n : nat) :
  (index < 0 \/ 35 < index)%Z ->
  type (fst (getHelloKittyData index rnd n)) = bodyType (rnd (S n)).
Proof.
  intros H. rewrite (getHelloKittyData_body index rnd n H). cbv zeta.
  destruct (Rlt_dec (rnd n) 0.65); [reflexivity|].
  destruct (Rlt_dec (rnd n) 0.85); reflexivity.
Qed.

(** The types of the reserved indices. *)
Lemma getHelloKittyData_feature_type (index : Z) (rnd : nat -> R) (n : nat) :
  (0 <= index <= 35)%Z ->
  type (fst (getHelloKittyData index rnd n)) =
  if (index <=? 1)%Z then EYE
  else if (index =? 2)%Z then NOSE
  else if (index <=? 8)%Z then WHISKER
  else BOW.
Proof.
  intros H.
  destruct (Z_le_gt_dec 9 index) as [H9|H9].
  - rewrite getHelloKittyData_bow by lia. cbn [type].
    destruct (Z.leb_spec index 1); [lia|].
    destruct (Z.eqb_spec index 2); [lia|].
    destruct (Z.leb_spec index 8); [lia | reflexivity].
  - assert (index = 0 \/ index = 1 \/ index = 2 \/ index = 3 \/ index = 4 \/
            index = 5 \/ index = 6 \/ index = 7 \/ index = 8)%Z as Hi by lia.
    destruct Hi as [-> | [-> | [-> | [-> | [-> | [-> | [-> | [-> | ->]]]]]]]];
      reflexivity.
Qed.

End FeatureFacts.

(** X10: the element type is decided by the index alone inside [0, 35]
    and by the second draw alone outside it: EYE exactly at 0 and 1, NOSE
    exactly at 2, WHISKER exactly at 3 to 8, BOW exactly at 9 to 35, and at
    every other index PHOTO, BALLOON, HEART or GIFT according to whether
    the draw is below 0.5, 0.75, 0.9 or not. *)
Theorem element_types_by_index (index : Z) (rnd : nat -> R) (n : nat) :
  let ty := Layout.type (fst (Layout.getHelloKittyData index rnd n)) in
  (ty = Layout.EYE <-> (index = 0 \/ index = 1)%Z) /\
  (ty = Layout.NOSE <-> index = 2%Z) /\
  (ty = Layout.WHISKER <-> (3 <= index <= 8)%Z) /\
  (ty = Layout.BOW <-> (9 <= index <= 35)%Z) /\
  ((index < 0 \/ 35 < index)%Z ->
   ty = Layout.bodyType (rnd (S n)) /\
   (ty = Layout.PHOTO <-> (rnd (S n) < 0.5)%R) /\
   (ty = Layout.BALLOON <-> (0.5 <= rnd (S n) < 0.75)%R) /\
   (ty = Layout.HEART <-> (0.75 <= rnd (S n) < 0.9)%R) /\
   (ty = Layout.GIFT <-> (0.9 <= rnd (S n))%R)).
Proof.
  intros ty. subst ty.
  destruct (Z_lt_ge_dec index 0) as [Hlo|Hlo];
    [|destruct (Z_lt_ge_dec 35 index) as [Hhi|Hhi]].
  1,2: assert (Hout : (index < 0 \/ 35 < index)%Z) by lia;
       rewrite (getHelloKittyData_body_type index rnd n Hout);
       destruct (bodyType_cases (rnd (S n))) as [E | [E | [E | E]]];
       (refine (conj _ (conj _ (conj _ (conj _ _))));
        [rewrite E; split; [discriminate | lia] ..
        | intros _; split; [reflexivity|];
          revert E; unfold Layout.bodyType;
          destruct (Rlt_dec (rnd (S n)) 0.5);
          [|destruct (Rlt_dec (rnd (S n)) 0.75);
            [|destruct (Rlt_dec (rnd (S n)) 0.9)]];
          intros E; try discriminate E;
          repeat split; intros; try reflexivity; try discriminate; lra]).
  rewrite getHelloKittyData_feature_type by lia.
  destruct (Z.leb_spec index 1); [|destruct (Z.eqb_spec index 2);
                                   [|destruct (Z.leb_spec index 8)]];
    (refine (conj _ (conj _ (conj _ (conj _ _))));
     [split; [try discriminate; intros; try reflexivity; lia
             | intros; try reflexivity; lia] .. | lia]).
Qed.

(** X11: the face is mirror-symmetric: the right eye (index 1) and the
    right whiskers (indices 6 to 8) are the left eye (index 0) and the left
    whiskers (indices 3 to 5) with the x coordinate and the z rotation
    negated, everything else equal. *)
Theorem face_is_mirror_symmetric (index : Z) (rnd rnd' : nat -> R) (n n' : nat) :
  (index = 0 \/ 3 <= index <= 5)%Z ->
  let left := fst (Layout.getHelloKittyData index rnd n) in
  let right :=
    fst (Layout.getHelloKittyData (if (index =? 0)%Z then 1 else index + 3)%Z
                                  rnd' n') in
  Layout.type right = Layout.type left /\
  (THREE.Vector3.x (Layout.pos right) = - THREE.Vector3.x (Layout.pos left))%R /\
  THREE.Vector3.y (Layout.pos right) = THREE.Vector3.y (Layout.pos left) /\
  THREE.Vector3.z (Layout.pos right) = THREE.Vector3.z (Layout.pos left) /\
  (THREE.Euler.z (Layout.rotation right)
   = - THREE.Euler.z (Layout.rotation left))%R /\
  Layout.scale right = Layout.scale left /\
  Layout.color right = Layout.color left.
Proof.
  intros H.
  assert (index = 0 \/ index = 3 \/ index = 4 \/ index = 5)%Z as Hi by lia.
  destruct Hi as [-> | [-> | [-> | ->]]]; cbn;
    unfold Layout.rowTilt, Layout.whiskerRow, Layout.whiskerSide, Layout.tilt;
    simpl;
    refine (conj eq_refl (conj _ (conj eq_refl (conj eq_refl
             (conj _ (conj eq_refl eq_refl))))));
    unfold Layout.rowTilt, Layout.whiskerRow, Layout.whiskerSide, Layout.tilt;
    simpl; lra.
Qed.

Lemma face_is_mirror_symmetric_witness :
  (THREE.Vector3.x (Layout.pos (Rand.run (Layout.getHelloKittyData 7)
                                  Layout.topOfLeftLobe))
   = - THREE.Vector3.x (Layout.pos (Rand.run (Layout.getHelloKittyData 4)
                                      Layout.topOfLeftLobe)))%R.
Proof.
  exact (proj1 (proj2 (face_is_mirror_symmetric 4 Layout.topOfLeftLobe
                         Layout.topOfLeftLobe 0 0
                         (or_intror (conj (fun H : (3 ?= 4)%Z = Gt => ltac:(discriminate H))
                                          (fun H : (4 ?= 5)%Z = Gt => ltac:(discriminate H))))))).
Defined.

(** X12: a particle of the head (first draw below 0.65, draws in [0, 1))
    lies on an ellipsoid about the origin with semi-axes
    [(rBase, 0.75 rBase, 0.75 rBase)] for some [rBase] in [3.5, 4]; so it is
    never closer than 2.625 to the centre nor farther than 4: the head
    is a hollow shell. *)
Theorem head_is_a_hollow_shell (index : Z) (rnd : nat -> R) (n : nat) :
  (index < 0 \/ 35 < index)%Z ->
  (forall m, 0 <= rnd m < 1)%R ->
  (rnd n < 0.65)%R ->
  let p := Layout.pos (fst (Layout.getHelloKittyData index rnd n)) in
  (exists rBase,
     3.5 <= rBase <= 4 /\
     THREE.Vector3.x p * THREE.Vector3.x p
     + (THREE.Vector3.y p / 0.75) * (THREE.Vector3.y p / 0.75)
     + (THREE.Vector3.z p / 0.75) * (THREE.Vector3.z p / 0.75)
     = rBase * rBase)%R /\
  (2.625 * 2.625 <= THREE.Vector3.distanceToSquared p THREE.Vector3.zero <= 4 * 4)%R.
Proof.
  intros Hout Hrnd Hr p. subst p.
  rewrite (getHelloKittyData_body index rnd n Hout). cbv zeta.
  destruct (Rlt_dec (rnd n) 0.65) as [_|Hn]; [|contradiction].
  cbn [Layout.pos THREE.Vector3.x THREE.Vector3.y THREE.Vector3.z].
  set (tinted := (Layout.ElementType_eqb _ Layout.HEART || _)%bool).
  set (k := if tinted then S (S (S n)) else S (S n)).
  pose proof (Hrnd (S (S k))) as Hb.
  pose proof (sphere_point (acos (2 * rnd (S k) - 1)) (2 * PI * rnd k)) as Hs.
  set (phi := acos (2 * rnd (S k) - 1)) in *.
  set (theta := (2 * PI * rnd k)%R) in *.
  set (b := rnd (S (S k))) in *.
  assert (Ha2 : (0 <= (sin phi * cos theta) * (sin phi * cos theta))%R) by nra.
  assert (Hb2 : (0 <= (sin phi * sin theta) * (sin phi * sin theta))%R) by nra.
  assert (Hc2 : (0 <= cos phi * cos phi)%R) by nra.
  set (A := (sin phi * cos theta)%R) in *.
  set (B := (sin phi * sin theta)%R) in *.
  set (C := cos phi) in *.
  split.
  - exists (3.5 + b * 0.5)%R. split; [lra|].
    replace ((3.5 + b * 0.5) * sin phi * cos theta)%R
      with ((3.5 + b * 0.5) * A)%R by (unfold A; ring).
    replace ((3.5 + b * 0.5) * 0.75 * sin phi * sin theta)%R
      with ((3.5 + b * 0.5) * 0.75 * B)%R by (unfold B; ring).
    fold C.
    replace ((3.5 + b * 0.5) * A * ((3.5 + b * 0.5) * A)
             + (3.5 + b * 0.5) * 0.75 * B / 0.75 * ((3.5 + b * 0.5) * 0.75 * B / 0.75)
             + (3.5 + b * 0.5) * 0.75 * C / 0.75 * ((3.5 + b * 0.5) * 0.75 * C / 0.75))%R
      with ((3.5 + b * 0.5) * (3.5 + b * 0.5) * (A * A + B * B + C * C))%R by lra.
    rewrite Hs. ring.
  - unfold THREE.Vector3.distanceToSquared, THREE.Vector3.zero.
    cbn [THREE.Vector3.x THREE.Vector3.y THREE.Vector3.z].
    replace ((3.5 + b * 0.5) * sin phi * cos theta)%R
      with ((3.5 + b * 0.5) * A)%R by (unfold A; ring).
    replace ((3.5 + b * 0.5) * 0.75 * sin phi * sin theta)%R
      with ((3.5 + b * 0.5) * 0.75 * B)%R by (unfold B; ring).
    fold C.
    set (q := (3.5 + b * 0.5)%R).
    assert (Hq : (3.5 <= q <= 4)%R) by (unfold q; lra).
    assert (Hq2 : (3.5 * 3.5 <= q * q <= 4 * 4)%R) by nra.
    replace ((q * A - 0) * (q * A - 0) + (q * 0.75 * B - 0) * (q * 0.75 * B - 0)
             + (q * 0.75 * C - 0) * (q * 0.75 * C - 0))%R
      with (q * q * (A * A + 0.5625 * (B * B) + 0.5625 * (C * C)))%R by lra.
    assert (Hm : (0.5625 <= A * A + 0.5625 * (B * B) + 0.5625 * (C * C) <= 1)%R)
      by lra.
    set (M := (A * A + 0.5625 * (B * B) + 0.5625 * (C * C))%R) in *.
    set (Q2 := (q * q)%R) in *.
    split; nra.
Qed.

Lemma head_is_a_hollow_shell_witness :
  (2.625 * 2.625
   <= THREE.Vector3.distanceToSquared
        (Layout.pos (Rand.run (Layout.getHelloKittyData 36) Layout.topOfLeftLobe))
        THREE.Vector3.zero
   <= 4 * 4)%R.
Proof.
  refine (proj2 (head_is_a_hollow_shell 36 Layout.topOfLeftLobe 0 _
                   topOfLeftLobe_range _)).
  - right. reflexivity.
  - simpl. lra.
Defined.

(** X13: a particle of the ears lies 1.2 from one of the two ear centres
    (-3.5, 3, 0) and (3.5, 3, 0).  The first draw is taken in [0.65, 0.84],
    clear of the upper threshold of the branch, whose literal 0.85 is not a
    double. *)
Theorem ears_are_spheres (index : Z) (rnd : nat -> R) (n : nat) :
  (index < 0 \/ 35 < index)%Z ->
  (0.65 <= rnd n <= 0.84)%R ->
  let p := Layout.pos (fst (Layout.getHelloKittyData index rnd n)) in
  (THREE.Vector3.distanceToSquared p (THREE.Vector3.mk (-3.5) 3 0) = 1.2 * 1.2 \/
   THREE.Vector3.distanceToSquared p (THREE.Vector3.mk 3.5 3 0) = 1.2 * 1.2)%R.
Proof.
  intros Hout [Hlo Hhi] p. subst p.
  rewrite (getHelloKittyData_body index rnd n Hout). cbv zeta.
  destruct (Rlt_dec (rnd n) 0.65) as [Hn|_]; [lra|].
  destruct (Rlt_dec (rnd n) 0.85) as [_|Hn]; [|lra].
  cbn [Layout.pos].
  set (tinted := (Layout.ElementType_eqb _ Layout.HEART || _)%bool).
  set (k := if tinted then S (S (S n)) else S (S n)).
  pose proof (sphere_point (acos (2 * rnd (S (S k)) - 1)) (2 * PI * rnd (S k))) as Hs.
  set (phi := acos (2 * rnd (S (S k)) - 1)) in *.
  set (theta := (2 * PI * rnd (S k))%R) in *.
  rewrite applyAxisAngle_z.
  destruct (Rgt_dec (rnd k) 0.5); [left | right];
    unfold THREE.Vector3.distanceToSquared, THREE.Vector3.add;
    cbn [THREE.Vector3.x THREE.Vector3.y THREE.Vector3.z].
  - pose proof (sin2_cos2_mult 0.5) as Hr.
    set (S := sin 0.5) in *. set (C := cos 0.5) in *.
    set (A := (sin phi * cos theta)%R) in *.
    set (B := (sin phi * sin theta)%R) in *.
    set (D := cos phi) in *.
    replace (1.2 * sin phi * cos theta)%R with (1.2 * A)%R by (unfold A; ring).
    replace (1.2 * sin phi * sin theta)%R with (1.2 * B)%R by (unfold B; ring).
    replace ((1.2 * A * C - 1.2 * B * S + -3.5 - -3.5)
             * (1.2 * A * C - 1.2 * B * S + -3.5 - -3.5)
             + (1.2 * A * S + 1.2 * B * C + 3 - 3)
               * (1.2 * A * S + 1.2 * B * C + 3 - 3)
             + (1.2 * D + 0 - 0) * (1.2 * D + 0 - 0))%R
      with (1.44 * ((A * A + B * B) * (S * S + C * C) + D * D))%R by lra.
    rewrite Hr. lra.
  - pose proof (sin2_cos2_mult (-0.5)) as Hr.
    set (S := sin (-0.5)) in *. set (C := cos (-0.5)) in *.
    set (A := (sin phi * cos theta)%R) in *.
    set (B := (sin phi * sin theta)%R) in *.
    set (D := cos phi) in *.
    replace (1.2 * sin phi * cos theta)%R with (1.2 * A)%R by (unfold A; ring).
    replace (1.2 * sin phi * sin theta)%R with (1.2 * B)%R by (unfold B; ring).
    replace ((1.2 * A * C - 1.2 * B * S + 3.5 - 3.5)
             * (1.2 * A * C - 1.2 * B * S + 3.5 - 3.5)
             + (1.2 * A * S + 1.2 * B * C + 3 - 3)
               * (1.2 * A * S + 1.2 * B * C + 3 - 3)
             + (1.2 * D + 0 - 0) * (1.2 * D + 0 - 0))%R
      with (1.44 * ((A * A + B * B) * (S * S + C * C) + D * D))%R by lra.
    rewrite Hr. lra.
Qed.

Lemma ears_are_spheres_witness :
  let p := Layout.pos (Rand.run (Layout.getHelloKittyData 36) (fun _ => 0.7%R)) in
  (THREE.Vector3.distanceToSquared p (THREE.Vector3.mk (-3.5) 3 0) = 1.2 * 1.2 \/
   THREE.Vector3.distanceToSquared p (THREE.Vector3.mk 3.5 3 0) = 1.2 * 1.2)%R.
Proof.
  refine (ears_are_spheres 36 (fun _ => 0.7%R) 0 _ _).
  - right. reflexivity.
  - lra.
Defined.

(** X14: a particle of the body (first draw at or above 0.85, draws in
    [0, 1)) has its height [y] in [-4, -1] and lies on the horizontal circle
    of radius [4 - 0.625 (y + 4)] about the vertical axis, a radius in
    [2.125, 4]: a cone frustum that narrows upward. *)
Theorem body_is_a_cone_frustum (index : Z) (rnd : nat -> R) (n : nat) :
  (index < 0 \/ 35 < index)%Z ->
  (forall m, 0 <= rnd m < 1)%R ->
  (0.85 <= rnd n)%R ->
  let p := Layout.pos (fst (Layout.getHelloKittyData index rnd n)) in
  let rho := (4 - 0.625 * (THREE.Vector3.y p + 4))%R in
  (-4 <= THREE.Vector3.y p <= -1)%R /\
  (2.125 <= rho <= 4)%R /\
  (THREE.Vector3.x p * THREE.Vector3.x p + THREE.Vector3.z p * THREE.Vector3.z p
   = rho * rho)%R.
Proof.
  intros Hout Hrnd Hr p. subst p.
  rewrite (getHelloKittyData_body index rnd n Hout). cbv zeta.
  destruct (Rlt_dec (rnd n) 0.65) as [Hn|_]; [lra|].
  destruct (Rlt_dec (rnd n) 0.85) as [Hn|_]; [lra|].
  cbn [Layout.pos THREE.Vector3.x THREE.Vector3.y THREE.Vector3.z].
  set (tinted := (Layout.ElementType_eqb _ Layout.HEART || _)%bool).
  set (k := if tinted then S (S (S n)) else S (S n)).
  pose proof (Hrnd (S k)) as Hv.
  pose proof (sin2_cos2_mult (2 * PI * rnd k)) as Hs.
  set (theta := (2 * PI * rnd k)%R) in *.
  set (v := rnd (S k)) in *.
  refine (conj _ (conj _ _)); [lra | lra |].
  set (S := sin theta) in *. set (C := cos theta) in *.
  replace ((2.5 * (1 - (-4 + v * 3 + 4) / 4) + 1.5) * C
           * ((2.5 * (1 - (-4 + v * 3 + 4) / 4) + 1.5) * C)
           + (2.5 * (1 - (-4 + v * 3 + 4) / 4) + 1.5) * S
             * ((2.5 * (1 - (-4 + v * 3 + 4) / 4) + 1.5) * S))%R
    with ((2.5 * (1 - (-4 + v * 3 + 4) / 4) + 1.5)
          * (2.5 * (1 - (-4 + v * 3 + 4) / 4) + 1.5) * (S * S + C * C))%R by lra.
  rewrite Hs. lra.
Qed.

Lemma body_is_a_cone_frustum_witness :
  (-4 <= THREE.Vector3.y
           (Layout.pos (Rand.run (Layout.getHelloKittyData 36) (fun _ => 0.9%R)))
   <= -1)%R.
Proof.
  refine (proj1 (body_is_a_cone_frustum 36 (fun _ => 0.9%R) 0 _ _ _)).
  - right. reflexivity.
  - intros m. lra.
  - lra.
Defined.

(** X15: whatever the index and the draws, a particle of type PHOTO is
    white, has scale 1 and no target rotation, and its index is outside the
    reserved range [0, 35]. *)
Theorem photos_are_plain (index : Z) (rnd : nat -> R) (n : nat) :
  let k := fst (Layout.getHelloKittyData index rnd n) in
  Layout.type k = Layout.PHOTO ->
  (index < 0 \/ 35 < index)%Z /\
  Layout.color k = Layout.colors.white /\
  Layout.scale k = 1%R /\
  Layout.rotation k = THREE.Euler.zero.
Proof.
  intros k. subst k.
  destruct (Z_lt_ge_dec index 0) as [Hlo|Hlo];
    [|destruct (Z_lt_ge_dec 35 index) as [Hhi|Hhi]].
  3:{ rewrite getHelloKittyData_feature_type by lia.
      destruct (index <=? 1)%Z; [discriminate|].
      destruct (index =? 2)%Z; [discriminate|].
      destruct (index <=? 8)%Z; discriminate. }
  all: assert (Hout : (index < 0 \/ 35 < index)%Z) by lia;
    rewrite (getHelloKittyData_body index rnd n Hout); cbv zeta;
    destruct (Rlt_dec (rnd n) 0.65); [|destruct (Rlt_dec (rnd n) 0.85)];
    cbn [Layout.type Layout.color Layout.scale Layout.rotation];
    intros ->; cbn [Layout.ElementType_eqb orb negb]; auto.
Qed.

Lemma photos_are_plain_witness :
  Layout.color (Rand.run (Layout.getHelloKittyData 36) Layout.topOfLeftLobe)
  = Layout.colors.white.
Proof.
  refine (proj1 (proj2 (photos_are_plain 36 Layout.topOfLeftLobe 0 _))).
  rewrite getHelloKittyData_body_type by (right; reflexivity).
  unfold Layout.bodyType. simpl.
  destruct (Rlt_dec 0.3 0.5); [reflexivity | lra].
Defined.

(** * Further properties: the particle table *)

Section DataFacts.

Import THREE Gallery.
Local Open Scope R_scope.

(** The fields of a generated particle: the layout's descriptor for its
    index, then nine more draws. *)
Lemma makeParticle_fields (len i : nat) (rnd : nat -> R) (m : nat) :
  let k := fst (Layout.getHelloKittyData (Z.of_nat i) rnd m) in
  let m1 := snd (Layout.getHelloKittyData (Z.of_nat i) rnd m) in
  let chaos := Vector3.mk ((rnd m1 - 0.5) * 60) ((rnd (S m1) - 0.5) * 60)
                          ((rnd (S (S m1)) - 0.5) * 60) in
  type (fst (makeParticle len i rnd m)) = Layout.type k /\
  targetPos (fst (makeParticle len i rnd m)) = Layout.pos k /\
  chaosPos (fst (makeParticle len i rnd m)) = chaos /\
  currentPos (fst (makeParticle len i rnd m)) = chaos /\
  textureIndex (fst (makeParticle len i rnd m)) = (i mod len)%nat.
Proof.
  unfold makeParticle, Rand.bind, Rand.random, Rand.ret.
  destruct (Layout.getHelloKittyData (Z.of_nat i) rnd m) as [k m1].
  cbn. auto.
Qed.

Lemma makeDataFrom_length (len n : nat) (rnd : nat -> R) :
  forall i m, length (fst (makeDataFrom len n i rnd m)) = n.
Proof.
  induction n as [|n IH]; intros i m; [reflexivity|].
  cbn [makeDataFrom]. unfold Rand.bind, Rand.ret.
  destruct (makeParticle len i rnd m) as [p m1].
  specialize (IH (S i) m1).
  destruct (makeDataFrom len n (S i) rnd m1) as [rest m2].
  simpl in *. now rewrite IH.
Qed.

(** Entry [j] of the table was made by [makeParticle] for index [i + j],
    at some point of the stream of draws. *)
Lemma makeDataFrom_lookup (len n : nat) (rnd : nat -> R) :
  forall i m j p,
    fst (makeDataFrom len n i rnd m) !! j = Some p ->
    exists m', p = fst (makeParticle len (i + j) rnd m').
Proof.
  induction n as [|n IH]; intros i m j p; [intros H; discriminate H|].
  cbn [makeDataFrom]. unfold Rand.bind, Rand.ret.
  destruct (makeParticle len i rnd m) as [p0 m1] eqn:E0.
  specialize (IH (S i) m1).
  destruct (makeDataFrom len n (S i) rnd m1) as [rest m2].
  cbn [fst] in *. destruct j as [|j]; simpl.
  - intros [= <-]. exists m. rewrite Nat.add_0_r, E0. reflexivity.
  - intros H. destruct (IH j p H) as [m' ->]. exists m'.
    replace (i + S j)%nat with (S i + j)%nat by lia. reflexivity.
Qed.

End DataFacts.

(** Entry [j] of the generated table was made by [makeParticle] for index
    [j]. *)
Lemma makeData_lookup (rnd : nat -> R) (j : nat) :
  (j < 400)%nat ->
  length (Rand.run Gallery.data rnd) = 400%nat /\
  exists (p : Gallery.Particle) (m' : nat),
    Rand.run Gallery.data rnd !! j = Some p /\
    p = fst (Gallery.makeParticle 52 j rnd m').
Proof.
  intros Hlt. unfold Rand.run, Gallery.data in *.
  pose proof (makeDataFrom_length (Z.to_nat TOTAL_NUMBERED_PHOTOS) Gallery.count
                rnd 0 0) as Hlen.
  split; [exact Hlen|].
  destruct (lookup_lt_is_Some_2
              (fst (Gallery.makeDataFrom (Z.to_nat TOTAL_NUMBERED_PHOTOS)
                      Gallery.count 0 rnd 0)) j) as [p Hj];
    [rewrite Hlen; exact Hlt|].
  destruct (makeDataFrom_lookup _ _ _ _ _ _ _ Hj) as [m' Hp].
  exists p, m'. split; [exact Hj | exact Hp].
Qed.

(** The first 36 particles are the face and the bow. *)
Lemma makeParticle_feature_type (len j : nat) (rnd : nat -> R) (m : nat) :
  (j < 36)%nat ->
  Gallery.type (fst (Gallery.makeParticle len j rnd m)) =
  if (j <=? 1)%nat then Layout.EYE
  else if (j =? 2)%nat then Layout.NOSE
  else if (j <=? 8)%nat then Layout.WHISKER
  else Layout.BOW.
Proof.
  intros H36.
  destruct (makeParticle_fields len j rnd m) as (Ht & _).
  rewrite Ht, getHelloKittyData_feature_type by lia.
  destruct (Nat.leb_spec j 1), (Z.leb_spec (Z.of_nat j) 1); try lia;
    [reflexivity|].
  destruct (Nat.eqb_spec j 2), (Z.eqb_spec (Z.of_nat j) 2); try lia;
    [reflexivity|].
  destruct (Nat.leb_spec j 8), (Z.leb_spec (Z.of_nat j) 8); try lia;
    reflexivity.
Qed.

Lemma makeParticle_photo_index (len j : nat) (rnd : nat -> R) (m : nat) :
  Gallery.type (fst (Gallery.makeParticle len j rnd m)) = Layout.PHOTO ->
  (36 <= j)%nat.
Proof.
  intros Hp. destruct (Nat.lt_ge_cases j 36) as [H36|H36]; [|exact H36].
  rewrite (makeParticle_feature_type len j rnd m H36) in Hp.
  destruct (j <=? 1)%nat; [discriminate|].
  destruct (j =? 2)%nat; [discriminate|].
  destruct (j <=? 8)%nat; discriminate.
Qed.

(** X16: the generated table has exactly 400 particles; particle [j]
    carries texture [j mod 52], starts at its chaos position, which lies in
    the cube [-30, 30)^3 when the draws are in [0, 1); the first 36
    particles are the two eyes, the nose, the six whiskers and the 27 bow
    elements, so a PHOTO particle has index 36 or more. *)
Theorem generated_table (rnd : nat -> R) (j : nat) :
  (j < 400)%nat ->
  length (Rand.run Gallery.data rnd) = 400%nat /\
  exists p : Gallery.Particle,
    Rand.run Gallery.data rnd !! j = Some p /\
    Gallery.textureIndex p = (j mod 52)%nat /\
    (Gallery.textureIndex p < 52)%nat /\
    Gallery.currentPos p = Gallery.chaosPos p /\
    ((forall m, 0 <= rnd m < 1)%R ->
     (-30 <= THREE.Vector3.x (Gallery.chaosPos p) < 30)%R /\
     (-30 <= THREE.Vector3.y (Gallery.chaosPos p) < 30)%R /\
     (-30 <= THREE.Vector3.z (Gallery.chaosPos p) < 30)%R) /\
    ((j < 36)%nat ->
     Gallery.type p = if (j <=? 1)%nat then Layout.EYE
                      else if (j =? 2)%nat then Layout.NOSE
                      else if (j <=? 8)%nat then Layout.WHISKER
                      else Layout.BOW) /\
    (Gallery.type p = Layout.PHOTO -> (36 <= j)%nat).
Proof.
  intros Hlt.
  destruct (makeData_lookup rnd j Hlt) as (Hlen & p & m' & Hj & ->).
  split; [exact Hlen|].
  exists (fst (Gallery.makeParticle 52 j rnd m')). split; [exact Hj|].
  destruct (makeParticle_fields 52 j rnd m') as (_ & _ & Hc & Hcur & Htex).
  refine (conj Htex (conj _ (conj _ (conj _
           (conj (makeParticle_feature_type 52 j rnd m')
                 (makeParticle_photo_index 52 j rnd m')))))).
  - rewrite Htex. apply Nat.mod_upper_bound. lia.
  - now rewrite Hcur, Hc.
  - intros Hrnd. rewrite Hc.
    cbn [THREE.Vector3.x THREE.Vector3.y THREE.Vector3.z].
    set (m1 := snd _).
    pose proof (Hrnd m1). pose proof (Hrnd (S m1)). pose proof (Hrnd (S (S m1))).
    repeat split; lra.
Qed.

Lemma generated_table_witness :
  length (Rand.run Gallery.data Layout.topOfLeftLobe) = 400%nat.
Proof.
  exact (proj1 (generated_table Layout.topOfLeftLobe 57 ltac:(lia))).
Defined.

(** * Further properties: the gallery *)

Section UniqueFacts.

Import Gallery.

(** The indices are collected in increasing order. *)
Lemma uniqueAfter_sorted (data : list Particle) (n : nat) :
  n <= length data -> StronglySorted lt (uniqueAfter data n).2.
Proof.
  induction n as [|n IH]; intros Hn.
  - unfold uniqueAfter; simpl. constructor.
  - specialize (IH ltac:(lia)).
    destruct (uniqueAfter_inv data n ltac:(lia)) as (_ & _ & I3 & _).
    rewrite uniqueAfter_S.
    destruct (lookup_lt_is_Some_2 data n) as [p Hp]; [lia|].
    assert (type p = Layout.PHOTO \/ type p <> Layout.PHOTO) as [Ht|Ht]
      by (destruct (type p); (left; reflexivity) || (right; discriminate)).
    2:{ now rewrite (uniqueStep_skip _ _ _ _ Hp Ht). }
    destruct (decide (textureIndex p ∈ (uniqueAfter data n).1)) as [Hs|Hs].
    + now rewrite (uniqueStep_seen _ _ _ _ Hp Ht Hs).
    + rewrite (uniqueStep_new _ _ _ _ Hp Ht Hs). cbn [snd].
      apply StronglySorted_app. split; [|split; [exact IH|]].
      * intros x1 x2 H1 H2. apply list_elem_of_singleton in H2. subst x2.
        exact (proj1 (I3 x1 H1)).
      * repeat constructor.
Qed.

Lemma StronglySorted_lt_NoDup (l : list nat) : StronglySorted lt l -> NoDup l.
Proof.
  induction 1 as [|x l Hs IH Hx]; constructor; [|exact IH].
  intros Hin. rewrite Forall_forall in Hx. specialize (Hx x Hin). lia.
Qed.

(** The texture shown by the particle at an index (0 past the end). *)
Lemma unique_textures_NoDup (data : list Particle) :
  NoDup ((fun i => match data !! i with
                   | Some p => textureIndex p
                   | None => 0
                   end) <$> uniquePhotoIndices data).
Proof.
  destruct (uniqueAfter_inv data (length data) (Nat.le_refl _))
    as (_ & _ & I3 & I4).
  rewrite <- uniquePhotoIndices_after in I3, I4.
  apply NoDup_fmap_2_strong.
  - intros i j Hi Hj E.
    destruct (I3 i Hi) as (_ & p & Hp & _).
    destruct (I3 j Hj) as (_ & q & Hq & _).
    rewrite Hp, Hq in E. exact (I4 i j p q Hi Hj Hp Hq E).
  - apply StronglySorted_lt_NoDup. rewrite uniquePhotoIndices_after.
    now apply uniqueAfter_sorted.
Qed.

Lemma uniquePhotoIndices_length_le (data : list Particle) (N : nat) :
  Forall (fun p => textureIndex p < N) data ->
  length (uniquePhotoIndices data) <= N.
Proof.
  intros Htex.
  destruct (uniqueAfter_inv data (length data) (Nat.le_refl _))
    as (_ & _ & I3 & _).
  rewrite <- uniquePhotoIndices_after in I3.
  pose proof (unique_textures_NoDup data) as Hnd.
  rewrite <- (length_fmap (fun i => match data !! i with
                                    | Some p => textureIndex p
                                    | None => 0
                                    end) (uniquePhotoIndices data)).
  apply NoDup_ListNoDup in Hnd.
  eapply Nat.le_trans;
    [apply NoDup_incl_length with (l' := seq 0 N); [exact Hnd|]
    | rewrite length_seq; lia].
  intros t Ht. apply list_elem_of_In in Ht.
  apply list_elem_of_fmap in Ht as (i & -> & Hi).
  destruct (I3 i Hi) as (_ & p & Hp & _). rewrite Hp.
  apply in_seq. rewrite Forall_forall in Htex.
  specialize (Htex p (list_elem_of_lookup_2 _ _ _ Hp)). lia.
Qed.

End UniqueFacts.

(** X17: [uniquePhotoIndices] is strictly increasing, holds only valid
    indices, and is no longer than the number of textures: if every texture
    index is below [N] it has at most [N] entries (at most 52 for the
    generated table). *)
Theorem unique_indices_sorted_and_bounded (data : list Gallery.Particle) (N : nat) :
  Forall (fun p => Gallery.textureIndex p < N) data ->
  StronglySorted lt (Gallery.uniquePhotoIndices data) /\
  (forall i, i ∈ Gallery.uniquePhotoIndices data -> i < length data) /\
  length (Gallery.uniquePhotoIndices data) <= N.
Proof.
  intros Htex.
  destruct (uniqueAfter_inv data (length data) (Nat.le_refl _))
    as (_ & _ & I3 & _).
  rewrite <- uniquePhotoIndices_after in I3.
  split; [|split].
  - rewrite uniquePhotoIndices_after. now apply uniqueAfter_sorted.
  - intros i Hi. exact (proj1 (I3 i Hi)).
  - now apply uniquePhotoIndices_length_le.
Qed.

Lemma unique_indices_sorted_and_bounded_witness :
  length (Gallery.uniquePhotoIndices Gallery.sampleData) <= 3.
Proof.
  refine (proj2 (proj2 (unique_indices_sorted_and_bounded Gallery.sampleData 3 _))).
  repeat (constructor; [simpl; lia|]). constructor.
Defined.

Section IndexOfFacts.

Import Gallery.
Local Open Scope Z_scope.

Lemma indexOf_range (l : list nat) (i : nat) :
  indexOf l i = -1 \/ 0 <= indexOf l i < Z.of_nat (length l).
Proof.
  induction l as [|j l IH]; simpl; [auto|].
  destruct (Nat.eqb j i); [right; lia|].
  destruct (Z.ltb_spec (indexOf l i) 0); [auto|]. right. lia.
Qed.

Lemma indexOf_found (l : list nat) (i : nat) :
  0 <= indexOf l i -> l !! Z.to_nat (indexOf l i) = Some i.
Proof.
  induction l as [|j l IH]; simpl; [lia|].
  destruct (Nat.eqb_spec j i) as [->|Hne]; [reflexivity|].
  destruct (Z.ltb_spec (indexOf l i) 0) as [Hlt|Hge]; [lia|].
  intros _. rewrite Z2Nat.inj_add by lia. simpl.
  rewrite Nat.add_1_r. simpl. now apply IH.
Qed.

Lemma indexOf_missing (l : list nat) (i : nat) :
  i ∉ l -> indexOf l i = -1.
Proof.
  induction l as [|j l IH]; simpl; [reflexivity|].
  intros Hn. apply not_elem_of_cons in Hn as [Hne Hn].
  destruct (Nat.eqb_spec j i) as [->|_]; [contradiction|].
  rewrite (IH Hn). reflexivity.
Qed.

Lemma indexOf_lookup (l : list nat) :
  NoDup l -> forall k i, l !! k = Some i -> indexOf l i = Z.of_nat k.
Proof.
  induction 1 as [|j l Hj Hnd IH]; intros k i Hk; [discriminate Hk|].
  destruct k as [|k]; simpl in *.
  - injection Hk as ->. now rewrite Nat.eqb_refl.
  - destruct (Nat.eqb_spec j i) as [->|_].
    + exfalso. apply Hj. exact (list_elem_of_lookup_2 _ _ _ Hk).
    + rewrite (IH k i Hk).
      destruct (Z.ltb_spec (Z.of_nat k) 0); lia.
Qed.

End IndexOfFacts.

(** [indexOf] returns -1 exactly when [includes] is false; otherwise
    it returns a position within the list at which the element is stored;
    and in a list without duplicates the element stored at position [k] is
    found at [k]. *)
Theorem indexOf_includes_round_trip (l : list nat) (i : nat) :
  (Gallery.includes l i = false <-> Gallery.indexOf l i = (-1)%Z) /\
  (Gallery.includes l i = true <->
   (0 <= Gallery.indexOf l i < Z.of_nat (length l))%Z) /\
  (Gallery.includes l i = true ->
   l !! Z.to_nat (Gallery.indexOf l i) = Some i) /\
  (NoDup l -> forall k, l !! k = Some i -> Gallery.indexOf l i = Z.of_nat k).
Proof.
  assert (Hin : Gallery.includes l i = true -> (0 <= Gallery.indexOf l i)%Z).
  { rewrite includes_elem_of. intros H.
    apply list_elem_of_lookup in H as [k Hk].
    induction l as [|j l IH] in k, Hk |- *; [discriminate Hk|]. simpl.
    destruct (Nat.eqb_spec j i); [lia|].
    destruct k as [|k]; simpl in Hk; [congruence|].
    specialize (IH k Hk).
    destruct (Z.ltb_spec (Gallery.indexOf l i) 0); lia. }
  assert (Hout : Gallery.includes l i = false -> Gallery.indexOf l i = (-1)%Z).
  { intros H. apply indexOf_missing. rewrite <- includes_elem_of. congruence. }
  pose proof (indexOf_range l i) as Hr.
  refine (conj _ (conj _ (conj _ _))).
  - split; [exact Hout|]. intros E.
    destruct (Gallery.includes l i) eqn:Ei; [|reflexivity].
    specialize (Hin eq_refl). lia.
  - split.
    + intros H. specialize (Hin H). lia.
    + intros H. destruct (Gallery.includes l i) eqn:Ei; [reflexivity|].
      specialize (Hout eq_refl). lia.
  - intros H. apply indexOf_found. auto.
  - intros Hnd k Hk. now apply indexOf_lookup.
Qed.

Section FrameFacts.

Import THREE Gallery.
Local Open Scope R_scope.

(** The target a particle is pulled toward during a frame (398-411). *)
Lemma frameChild_currentPos state gm cpi uniq delta i p g :
  currentPos (fst (frameChild state gm cpi uniq delta i p g)) =
  lerp (currentPos p)
       (if gm && includes uniq i
        then getGalleryPosition (indexOf uniq i) (Z.of_nat (length uniq)) cpi
        else if SceneState_eqb state FORMED then targetPos p else chaosPos p)
       (delta * (if gm then 2.0 else if SceneState_eqb state FORMED then 1.5 else 0.5)).
Proof. reflexivity. Qed.

(** One [lerp] step scales the offset from the target by [1 - alpha]. *)
Lemma lerp_distance (a b : Vector3.t) (alpha : R) :
  Vector3.distanceToSquared (lerp a b alpha) b
  = (1 - alpha) * (1 - alpha) * Vector3.distanceToSquared a b.
Proof.
  unfold Vector3.distanceToSquared, lerp.
  cbn [Vector3.x Vector3.y Vector3.z]. ring.
Qed.

(** The loop of [uniquePhotoIndices] reads only the type and the texture of
    each particle. *)
Lemma uniquePhotoIndices_ext (d1 d2 : list Particle) :
  length d1 = length d2 ->
  (forall i p q, d1 !! i = Some p -> d2 !! i = Some q ->
                 type p = type q /\ textureIndex p = textureIndex q) ->
  uniquePhotoIndices d1 = uniquePhotoIndices d2.
Proof.
  intros Hlen Hext. unfold uniquePhotoIndices. rewrite <- Hlen. f_equal.
  assert (Hstep : forall n acc, (n <= length d1)%nat ->
            fold_left (uniqueStep d1) (seq 0 n) acc
            = fold_left (uniqueStep d2) (seq 0 n) acc).
  { induction n as [|n IH]; intros acc Hn; [reflexivity|].
    rewrite seq_S, !fold_left_app, IH by lia. cbn [fold_left Nat.add].
    unfold uniqueStep.
    destruct (lookup_lt_is_Some_2 d1 n) as [p Hp]; [lia|].
    destruct (lookup_lt_is_Some_2 d2 n) as [q Hq]; [lia|].
    rewrite Hp, Hq. destruct (Hext n p q Hp Hq) as [-> ->]. reflexivity. }
  now apply Hstep.
Qed.

Lemma frameChildren_lookup state gm cpi uniq delta :
  forall (objs : list Particle) (children : list Group) (i0 k : nat),
    length children = length objs ->
    (frameChildren state gm cpi uniq delta i0 objs children).1 !! k
    = (fun p => fst (frameChild state gm cpi uniq delta (i0 + k) p
                       {| position := currentPos p; visible := true |}))
        <$> objs !! k /\
    (frameChildren state gm cpi uniq delta i0 objs children).2 !! k
    = (fun p => snd (frameChild state gm cpi uniq delta (i0 + k) p
                       {| position := currentPos p; visible := true |}))
        <$> objs !! k.
Proof.
  induction objs as [|p objs IH]; intros [|c children] i0 k Hlen; simpl in Hlen;
    try discriminate.
  - destruct k; split; reflexivity.
  - cbn [frameChildren].
    specialize (IH children (S i0)).
    destruct (frameChildren state gm cpi uniq delta (S i0) objs children)
      as [ps gs].
    cbn [fst snd] in *. destruct k as [|k]; simpl.
    + rewrite Nat.add_0_r. split; reflexivity.
    + replace (i0 + S k)%nat with (S i0 + k)%nat by lia.
      apply IH. lia.
Qed.

End FrameFacts.

(** X18: a frame update rewrites nothing of a particle but [currentPos]:
    type, texture, target and chaos positions stay, the group is placed at
    the new [currentPos], the table keeps its length, and
    [uniquePhotoIndices] of the updated table is the one computed before
    the frame, so memoising it over frames is sound. *)
Theorem frame_keeps_table_shape (state : SceneState) (galleryMode : bool)
    (currentPhotoIndex : Z) (delta : R)
    (objs : list Gallery.Particle) (children : list Gallery.Group) :
  length children = length objs ->
  let objs' := fst (Gallery.useFrame state galleryMode currentPhotoIndex delta
                      objs (Some children)) in
  let groups := snd (Gallery.useFrame state galleryMode currentPhotoIndex delta
                       objs (Some children)) in
  length objs' = length objs /\
  Gallery.uniquePhotoIndices objs' = Gallery.uniquePhotoIndices objs /\
  (forall k p', objs' !! k = Some p' ->
     exists p g,
       objs !! k = Some p /\
       Gallery.type p' = Gallery.type p /\
       Gallery.textureIndex p' = Gallery.textureIndex p /\
       Gallery.targetPos p' = Gallery.targetPos p /\
       Gallery.chaosPos p' = Gallery.chaosPos p /\
       Gallery.targetRotation p' = Gallery.targetRotation p /\
       Gallery.scale p' = Gallery.scale p /\
       (exists gs, groups = Some gs /\ gs !! k = Some g) /\
       Gallery.position g = Gallery.currentPos p').
Proof.
  intros Hlen objs' groups. subst objs' groups. unfold Gallery.useFrame.
  pose proof (frameChildren_lookup state galleryMode currentPhotoIndex
                (Gallery.uniquePhotoIndices objs) delta objs children 0) as Hk.
  destruct (Gallery.frameChildren state galleryMode currentPhotoIndex
              (Gallery.uniquePhotoIndices objs) delta 0 objs children)
    as [ps gs] eqn:E.
  cbn [fst snd] in *.
  assert (Hl : length ps = length objs).
  { apply Nat.le_antisymm.
    - destruct (Nat.le_gt_cases (length ps) (length objs)) as [H|H]; [exact H|].
      destruct (lookup_lt_is_Some_2 ps (length objs) H) as [p' Hp'].
      rewrite (proj1 (Hk (length objs) Hlen)) in Hp'.
      rewrite (proj2 (lookup_ge_None objs (length objs)) (Nat.le_refl _)) in Hp'.
      discriminate Hp'.
    - destruct (Nat.le_gt_cases (length objs) (length ps)) as [H|H]; [exact H|].
      destruct (lookup_lt_is_Some_2 objs (length ps) H) as [p Hp].
      pose proof (proj1 (Hk (length ps) Hlen)) as Hq. rewrite Hp in Hq.
      rewrite (proj2 (lookup_ge_None ps (length ps)) (Nat.le_refl _)) in Hq.
      discriminate Hq. }
  refine (conj Hl (conj _ _)).
  - apply uniquePhotoIndices_ext; [exact Hl|].
    intros i p' p Hp' Hp. rewrite (proj1 (Hk i Hlen)), Hp in Hp'.
    injection Hp' as <-. split; reflexivity.
  - intros k p' Hp'. destruct (Hk k Hlen) as [H1 H2]. rewrite H1 in Hp'.
    destruct (objs !! k) as [p|] eqn:Hp; [|discriminate Hp'].
    injection Hp' as <-.
    exists p, (snd (Gallery.frameChild state galleryMode currentPhotoIndex
                      (Gallery.uniquePhotoIndices objs) delta (0 + k) p
                      {| Gallery.position := Gallery.currentPos p;
                         Gallery.visible := true |})).
    repeat split. exists gs. split; [reflexivity | exact H2].
Qed.

Lemma frame_keeps_table_shape_witness :
  Gallery.uniquePhotoIndices
    (fst (Gallery.useFrame FORMED true 0 0 Gallery.sampleData
            (Some Gallery.sampleChildren)))
  = Gallery.uniquePhotoIndices Gallery.sampleData.
Proof.
  exact (proj1 (proj2 (frame_keeps_table_shape FORMED true 0 0 Gallery.sampleData
                         Gallery.sampleChildren eq_refl))).
Defined.

Section RingFacts.

Import THREE Gallery.
Local Open Scope R_scope.

Lemma sin_turn (x : R) : sin (x + 2 * PI) = sin x.
Proof. rewrite sin_plus, sin_2PI, cos_2PI. ring. Qed.

Lemma cos_turn (x : R) : cos (x + 2 * PI) = cos x.
Proof. rewrite cos_plus, sin_2PI, cos_2PI. ring. Qed.

Lemma sin_turn_back (x : R) : sin (x - 2 * PI) = sin x.
Proof. rewrite <- (sin_turn (x - 2 * PI)). f_equal. ring. Qed.

Lemma cos_turn_back (x : R) : cos (x - 2 * PI) = cos x.
Proof. rewrite <- (cos_turn (x - 2 * PI)). f_equal. ring. Qed.

Lemma galleryAngle_offset (i N f : Z) :
  galleryAngle i N f = galleryAngle (i - f) N 0.
Proof.
  unfold galleryAngle. rewrite minus_IZR. unfold Rdiv. ring.
Qed.

End RingFacts.

(** X19: over [n] frames with the same mode, focus and [delta], a particle's
    squared distance to its target is multiplied by [(1 - alpha)^2] at every
    frame, where [alpha] is [delta] times 2.0 in gallery mode, 1.5 when
    FORMED and 0.5 in CHAOS; the target itself (gallery position, target
    position or chaos position) does not move. *)
Theorem particle_approaches_target (n : nat) (state : SceneState)
    (galleryMode : bool) (currentPhotoIndex : Z) (uniq : list nat) (delta : R)
    (i : nat) (p : Gallery.Particle) (g : Gallery.Group) :
  let target :=
    if galleryMode && Gallery.includes uniq i
    then Gallery.getGalleryPosition (Gallery.indexOf uniq i)
                                    (Z.of_nat (length uniq)) currentPhotoIndex
    else if SceneState_eqb state FORMED then Gallery.targetPos p
         else Gallery.chaosPos p in
  let alpha :=
    (delta * (if galleryMode then 2.0
              else if SceneState_eqb state FORMED then 1.5 else 0.5))%R in
  let p' := fst (Loop.childFrames n state galleryMode currentPhotoIndex uniq
                   delta i p g) in
  (THREE.Vector3.distanceToSquared (Gallery.currentPos p') target
   = ((1 - alpha) * (1 - alpha)) ^ n
     * THREE.Vector3.distanceToSquared (Gallery.currentPos p) target)%R /\
  Gallery.targetPos p' = Gallery.targetPos p /\
  Gallery.chaosPos p' = Gallery.chaosPos p.
Proof.
  revert p g. induction n as [|n IH]; intros p g; cbv zeta.
  - simpl. repeat split. ring.
  - cbn [Loop.childFrames].
    destruct (Gallery.frameChild state galleryMode currentPhotoIndex uniq delta
                i p g) as [p1 g1] eqn:E.
    pose proof (frameChild_currentPos state galleryMode currentPhotoIndex uniq
                  delta i p g) as Hc.
    assert (Ht : Gallery.targetPos p1 = Gallery.targetPos p /\
                 Gallery.chaosPos p1 = Gallery.chaosPos p)
      by (apply (f_equal fst) in E; cbn [fst] in E; subst p1; split; reflexivity).
    rewrite E in Hc. cbn [fst] in Hc.
    destruct Ht as [Ht1 Ht2].
    specialize (IH p1 g1). cbv zeta in IH. rewrite Ht1, Ht2 in IH.
    destruct IH as (IHd & IHt & IHc).
    refine (conj _ (conj IHt IHc)).
    rewrite IHd, Hc, lerp_distance. simpl pow. ring.
Qed.

(** X20: a ring position depends only on the offset of the photo from the
    focus: moving the focus forward by one puts every photo where its
    predecessor was, and for a ring of [N <> 0] photos the positions repeat
    with period [N] both in the photo and in the focus. *)
Theorem ring_depends_on_offset (i N f : Z) :
  Gallery.getGalleryPosition i N f = Gallery.getGalleryPosition (i - f) N 0 /\
  Gallery.getGalleryPosition i N (f + 1) = Gallery.getGalleryPosition (i - 1) N f /\
  (N <> 0%Z ->
   Gallery.getGalleryPosition (i + N) N f = Gallery.getGalleryPosition i N f /\
   Gallery.getGalleryPosition i N (f + N) = Gallery.getGalleryPosition i N f).
Proof.
  unfold Gallery.getGalleryPosition.
  refine (conj _ (conj _ _)).
  - now rewrite galleryAngle_offset.
  - rewrite (galleryAngle_offset i N (f + 1)), (galleryAngle_offset (i - 1) N f).
    replace (i - (f + 1))%Z with (i - 1 - f)%Z by lia. reflexivity.
  - intros HN. assert (HN' : IZR N <> 0%R) by (apply not_0_IZR; exact HN).
    assert (H1 : Gallery.galleryAngle (i + N) N f
                 = (Gallery.galleryAngle i N f + 2 * PI)%R)
      by (unfold Gallery.galleryAngle; rewrite plus_IZR; field; exact HN').
    assert (H2 : Gallery.galleryAngle i N (f + N)
                 = (Gallery.galleryAngle i N f - 2 * PI)%R)
      by (unfold Gallery.galleryAngle; rewrite plus_IZR; field; exact HN').
    rewrite H1, H2, sin_turn, cos_turn, sin_turn_back, cos_turn_back.
    split; reflexivity.
Qed.

Lemma ring_depends_on_offset_witness :
  Gallery.getGalleryPosition (3 + 52) 52 7 = Gallery.getGalleryPosition 3 52 7.
Proof.
  exact (proj1 (proj2 (proj2 (ring_depends_on_offset 3 52 7))
                  ltac:(discriminate))).
Defined.

(** X21: in gallery mode the photo whose place in [uniquePhotoIndices]
    equals [currentPhotoIndex] is pulled toward the front of the ring,
    [(0, 0, 20)], at twice [delta] per frame, and it is visible. *)
Theorem focused_photo_moves_to_front (state : SceneState) (currentPhotoIndex : Z)
    (uniq : list nat) (delta : R) (k i : nat)
    (p : Gallery.Particle) (g : Gallery.Group) :
  NoDup uniq ->
  uniq !! k = Some i ->
  currentPhotoIndex = Z.of_nat k ->
  let r := Gallery.frameChild state true currentPhotoIndex uniq delta i p g in
  Gallery.currentPos (fst r)
  = Gallery.lerp (Gallery.currentPos p) (THREE.Vector3.mk 0 0 20) (delta * 2.0) /\
  Gallery.position (snd r) = Gallery.currentPos (fst r) /\
  Gallery.visible (snd r) = true.
Proof.
  intros Hnd Hk -> r. subst r.
  assert (Hin : Gallery.includes uniq i = true)
    by (apply includes_elem_of; exact (list_elem_of_lookup_2 _ _ _ Hk)).
  rewrite frameChild_currentPos.
  unfold Gallery.frameChild. cbn [snd Gallery.position Gallery.visible andb].
  rewrite Hin, (indexOf_lookup uniq Hnd k i Hk).
  refine (conj _ (conj eq_refl eq_refl)).
  f_equal. unfold Gallery.getGalleryPosition.
  replace (Gallery.galleryAngle (Z.of_nat k) (Z.of_nat (length uniq)) (Z.of_nat k))
    with 0%R by (unfold Gallery.galleryAngle; ring).
  rewrite sin_0, cos_0. unfold Gallery.radius. f_equal; ring.
Qed.

Lemma focused_photo_moves_to_front_witness :
  Gallery.visible
    (snd (Gallery.frameChild FORMED true 1 [0; 3]%nat 0 3
            (Gallery.sampleParticle Layout.PHOTO 2)
            {| Gallery.position := THREE.Vector3.zero; Gallery.visible := false |}))
  = true.
Proof.
  refine (proj2 (proj2 (focused_photo_moves_to_front FORMED 1 [0; 3]%nat 0 1 3
                          (Gallery.sampleParticle Layout.PHOTO 2)
                          {| Gallery.position := THREE.Vector3.zero;
                             Gallery.visible := false |} _ eq_refl eq_refl))).
  apply NoDup_cons_2;
    [intros H; apply list_elem_of_singleton in H; discriminate H
    | apply NoDup_singleton].
Defined.

(** X22: the gallery built from the generated table shows at most 52
    photos, one per texture, and all of them are particles with index 36 or
    more (the first 36 particles are the face and the bow). *)
Theorem generated_gallery_size (rnd : nat -> R) :
  length (Gallery.uniquePhotoIndices (Rand.run Gallery.data rnd)) <= 52 /\
  (forall i, i ∈ Gallery.uniquePhotoIndices (Rand.run Gallery.data rnd) ->
             36 <= i < 400).
Proof.
  assert (Hlen : length (Rand.run Gallery.data rnd) = 400)
    by exact (proj1 (makeData_lookup rnd 0 ltac:(lia))).
  split.
  - apply uniquePhotoIndices_length_le. apply Forall_lookup_2.
    intros j p Hj.
    assert (Hlt : j < 400)
      by (rewrite <- Hlen; exact (lookup_lt_Some _ _ _ Hj)).
    destruct (makeData_lookup rnd j Hlt) as (_ & q & m' & Hq & ->).
    assert (p = fst (Gallery.makeParticle 52 j rnd m')) as -> by congruence.
    destruct (makeParticle_fields 52 j rnd m') as (_ & _ & _ & _ & ->).
    apply Nat.mod_upper_bound. lia.
  - intros i Hi.
    destruct (uniqueAfter_inv (Rand.run Gallery.data rnd)
                (length (Rand.run Gallery.data rnd)) (Nat.le_refl _))
      as (_ & _ & I3 & _).
    rewrite <- uniquePhotoIndices_after in I3.
    destruct (I3 i Hi) as (Hlt & p & Hp & Hty).
    rewrite Hlen in Hlt.
    destruct (makeData_lookup rnd i Hlt) as (_ & q & m' & Hq & ->).
    assert (p = fst (Gallery.makeParticle 52 i rnd m')) as -> by congruence.
    split; [|exact Hlt].
    exact (makeParticle_photo_index 52 i rnd m' Hty).
Qed.

(** * Worked examples *)

Example uniquePhotoIndices_sample :
  Gallery.uniquePhotoIndices Gallery.sampleData = [0; 3]%nat.
Proof. vm_compute. reflexivity. Qed.

Example indexOf_sample :
  Gallery.indexOf [0; 3]%nat 3 = 1%Z /\ Gallery.indexOf [0; 3]%nat 2 = (-1)%Z.
Proof. split; reflexivity. Qed.

Example fist_held_for_seven_frames :
  snd (Gesture.feed false
         (Gesture.sameLabelRun "Closed_Fist" [0.9; 0.9; 0.9; 0.9; 0.9; 0.9; 0.9]%Q)
         Gesture.initialRefs)
  = [[]; []; []; []; []; [FORMED]; []].
Proof. vm_compute. reflexivity. Qed.

Example victory_never_fires :
  snd (Gesture.feed false
         (Gesture.sameLabelRun "Victory" [0.9; 0.9; 0.9; 0.9; 0.9; 0.9; 0.9]%Q)
         Gesture.initialRefs)
  = [[]; []; []; []; []; []; []].
Proof. vm_compute. reflexivity. Qed.

Example upload_three_with_two_slots :
  App.handlePhotoUpload (Some ["a.jpg"; "b.jpg"; "c.jpg"]%string)
    (App.setPhotoCount (fun _ => 50%Z) App.initial)
  = (App.setPhotoCount (fun _ => 52%Z) App.initial,
     [App.AlertReadyToUpload 2 51 52; App.ResetFileInput]).
Proof. reflexivity. Qed.
